(** * remark-mdx-snippets: the snippet-inclusion transform

    A shallow embedding of [mdxSnippet] (the plugin of this repository) and
    of the helpers it is built from, with the properties of its
    specification stated and proved over the embedding.

    JavaScript objects are finite maps from field names to values, held in
    a store indexed by locations, so that [Object.assign(node, ...)] is an
    update of the object at the node's location and every other reference
    to that node sees it.  Promises are settled values ([Fulfilled] or
    [Rejected]) produced by computations over the store; what the plugin
    prints on the console and the reads and fetches it starts are collected
    in a trace.  The file system, the network, [path.join] and the remark
    parser are parameters. *)

From stdpp Require Import gmap strings list pretty.
From Stdlib Require Import ZArith Ascii String Lia.

Local Open Scope string_scope.
Local Open Scope Z_scope.
Local Open Scope list_scope.

(** ** JavaScript strings

    Strings are sequences of one-byte characters; [toLowerCase] acts on the
    letters [A]-[Z]. *)

Module Js.

Definition is_upper (c : ascii) : bool :=
  let n := nat_of_ascii c in ((65 <=? n) && (n <=? 90))%nat.

Definition lower_char (c : ascii) : ascii :=
  if is_upper c then ascii_of_nat (nat_of_ascii c + 32) else c.

Fixpoint toLowerCase (s : string) : string :=
  match s with
  | EmptyString => EmptyString
  | String c s' => String (lower_char c) (toLowerCase s')
  end.

(** [s.lastIndexOf(c)] for a one-character needle: the scan keeps the index
    of the latest occurrence seen, [-1] when there is none. *)
Fixpoint lastIndexOf_from (c : ascii) (s : string) (i acc : Z) : Z :=
  match s with
  | EmptyString => acc
  | String a s' => lastIndexOf_from c s' (i + 1) (if Ascii.eqb a c then i else acc)
  end.

Definition lastIndexOf (c : ascii) (s : string) : Z := lastIndexOf_from c s 0 (-1).

Fixpoint drop (n : nat) (s : string) : string :=
  match n, s with
  | O, _ => s
  | S n', String _ s' => drop n' s'
  | S _, EmptyString => EmptyString
  end.

(** [s.substring(start)]: a negative start counts as [0], a start past the
    end gives the empty string. *)
Definition substring (start : Z) (s : string) : string := drop (Z.to_nat start) s.

(** [s.startsWith(p)] *)
Fixpoint startsWith (s p : string) {struct p} : bool :=
  match p with
  | EmptyString => true
  | String a p' =>
      match s with
      | String b s' => Ascii.eqb a b && startsWith s' p'
      | EmptyString => false
      end
  end.

(** [a || b] on strings: the empty string is falsy. *)
Definition truthy (s : string) : bool :=
  match s with EmptyString => false | _ => true end.

End Js.

(** ** The extension classifier *)

Definition dot : ascii := "."%char.
Definition slash : ascii := "/"%char.
Definition backslash : ascii := "\"%char.

Definition getFileExtension (filePath : string) : string :=
  let lastDot := Js.lastIndexOf dot filePath in
  let lastSlash := Z.max (Js.lastIndexOf slash filePath)
                         (Js.lastIndexOf backslash filePath) in
  if (lastDot =? -1) || (lastDot <? lastSlash) then ""
  else Js.toLowerCase (Js.substring (lastDot + 1) filePath).

Definition isMarkdownExtension (extension : string) : bool :=
  String.eqb extension "md" || String.eqb extension "mdx".

(** The classifier as the specification words it: the tag is what follows
    the last dot found after the last path separator, lowercased, and it is
    empty when there is no such dot; the content is markdown-like when the
    tag, compared without regard to case, is [md] or [mdx]. *)
Module Spec.







End Spec.

(** ** Documents as objects in a store *)

Definition loc := nat.

(** The value of a JSX attribute: a string, [null] (an attribute written
    without a value), or an expression in braces. *)
Inductive attr_value :=
  | AttrString (s : string)
  | AttrNull
  | AttrExpression (code : string).

(** An attribute object.  A spread attribute has no [name]. *)
Record attribute := Attribute {
  attr_name : option string;
  attr_val : attr_value }.

(** The values a field of a node holds.  [VNodes] is an array of references
    to nodes, [VPos line column] a position whose start is [line:column],
    [VFile contents path] a file object with a [value] and a [path]. *)
Inductive value :=
  | VNull
  | VStr (s : string)
  | VNum (n : Z)
  | VBool (b : bool)
  | VAttrs (attributes : list attribute)
  | VNodes (children : list loc)
  | VPos (line column : Z)
  | VFile (contents path : string).

Abbreviation obj := (gmap string value).
Abbreviation heap := (gmap loc obj).

(** A parsed document before it is placed in the store.  A node with no
    [children] field has [None]; a parent with no child has [Some []]. *)
#[warnings="-register-all"]
Inductive tree := Tree (fields : obj) (kids : option (list tree)).

(** Placing a tree in the store gives every node a fresh location and sets
    each parent's [children] to the locations of its children. *)
Fixpoint alloc (t : tree) (h : heap) : loc * heap :=
  match t with
  | Tree fields None =>
      let l := fresh (dom h) in (l, <[l := fields]> h)
  | Tree fields (Some ts) =>
      let l := fresh (dom h) in
      let '(ls, h') :=
        (fix alloc_all (ts : list tree) (h : heap) : list loc * heap :=
           match ts with
           | [] => ([], h)
           | t :: ts' =>
               let '(c, h1) := alloc t h in
               let '(cs, h2) := alloc_all ts' h1 in
               (c :: cs, h2)
           end) ts (<[l := fields]> h) in
      (l, <[l := <["children" := VNodes ls]> fields]> h')
  end.

Definition flowElement : string := "mdxJsxFlowElement".
Definition textElement : string := "mdxJsxTextElement".

Definition has_type (node : obj) (ty : string) : bool :=
  match node !! "type" with
  | Some (VStr s) => String.eqb s ty
  | _ => false
  end.

Definition has_name (node : obj) (name : string) : bool :=
  match node !! "name" with
  | Some (VStr s) => String.eqb s name
  | _ => false
  end.

(** [node.position?.start?.line] and [.column]: [None] is [undefined]. *)
Definition start_line (node : obj) : option Z :=
  match node !! "position" with Some (VPos line _) => Some line | _ => None end.

Definition start_column (node : obj) : option Z :=
  match node !! "position" with Some (VPos _ column) => Some column | _ => None end.

(** The object a reference points to.  The stores the transform works on
    hold an object at every location they mention; a location outside the
    store reads as an object with no field. *)
Definition object_at (h : heap) (l : loc) : obj := default ∅ (h !! l).

(** [Object.assign(target, source)]: the fields of [source] are written on
    [target]; a field [source] lacks keeps the value [target] had. *)
Definition assign (target source : obj) : obj := source ∪ target.

(** ** unist-util-visit

    [visit(tree, types, visitor)] walks the tree in pre-order, depth first,
    and calls the visitor on the nodes whose type is listed.  The walk is
    bounded by [fuel]; [None] is a walk that does not end within it. *)
Fixpoint preorder (fuel : nat) (h : heap) (l : loc) : option (list loc) :=
  match fuel with
  | O => None
  | S n =>
      match object_at h l !! "children" with
      | Some (VNodes cs) =>
          match mapM (preorder n h) cs with
          | Some below => Some (l :: List.concat below)
          | None => None
          end
      | _ => Some [l]
      end
  end.

Definition type_listed (h : heap) (types : list string) (l : loc) : bool :=
  existsb (has_type (object_at h l)) types.

Definition visit (fuel : nat) (h : heap) (root : loc) (types : list string)
  : option (list loc) :=
  match preorder fuel h root with
  | Some nodes => Some (List.filter (type_listed h types) nodes)
  | None => None
  end.

(** ** Promises, the console and the store *)

(** A settled promise.  A rejection carries the message of its error. *)
Inductive settled (A : Type) :=
  | Fulfilled (a : A)
  | Rejected (message : string).
Arguments Fulfilled {A} a.
Arguments Rejected {A} message.

(** What a run prints and which reads and requests it starts, in order. *)
Inductive event :=
  | WarnNode (message : string) (node : loc)
  | WarnText (message detail : string)
  | ErrorLog (args : list string)
  | ReadFile (path : string)
  | FetchUrl (url : string)
  | AddDependency (path : string).

(** The plugin's options as the caller writes them ([None]: left out) and
    as [mdxSnippet] destructures them, defaults filled in.  [unified] is the
    caller's processor, named by a label. *)
Record options := Options {
  opt_snippetsDir : option string;
  opt_fileAttribute : option string;
  opt_elementName : option string;
  opt_processor : option string }.

Record config := Config {
  snippetsDir : string;
  fileAttribute : string;
  elementName : string;
  unified : option string }.

(** The plugins the transform attaches to a processor with [.use]. *)
Inductive plugin :=
  | remarkGfm
  | remarkStringify
  | remarkMdx
  | snippetPlugin (o : options).

Definition same_plugin (a b : plugin) : bool :=
  match a, b with
  | remarkGfm, remarkGfm | remarkStringify, remarkStringify
  | remarkMdx, remarkMdx | snippetPlugin _, snippetPlugin _ => true
  | _, _ => false
  end.

(** [.use(p)] on a list of attachers: a plugin already attached keeps its
    place and takes the new options, a new one goes last. *)
Fixpoint attach (ps : list plugin) (p : plugin) : list plugin :=
  match ps with
  | [] => [p]
  | q :: ps' => if same_plugin q p then p :: ps' else q :: attach ps' p
  end.

(** The syntax extensions in force when a processor parses. *)
Record grammar := Grammar { gfm : bool; mdx : bool }.

Definition grammar_of (ps : list plugin) : grammar :=
  {| gfm := existsb (same_plugin remarkGfm) ps;
     mdx := existsb (same_plugin remarkMdx) ps |}.

Definition snippet_options (ps : list plugin) : option options :=
  match List.find (same_plugin (snippetPlugin (Options None None None None))) ps with
  | Some (snippetPlugin o) => Some o
  | _ => None
  end.

(** A processor the transform configures: a fresh [remark()] with its own
    attachers, or the caller's processor, one object shared by every use,
    whose attachers live in the state. *)
Inductive processor :=
  | Fresh (attachers : list plugin)
  | Shared.

(** The store of nodes and the attachers added to the caller's processor. *)
Record state := State {
  nodes : heap;
  shared_attachers : list plugin }.

(** The file a transformer runs on: its path, and whether [file.data]
    carries a compiler with an [addDependency] function. *)
Record vfile := VFileOf {
  vf_path : option string;
  vf_compiler : bool }.

(** The file read or fetched for a marker: [{value, path}]. *)
Record snippet_file := SnippetFile {
  sf_value : string;
  sf_path : string }.

(** A response of [fetch].  [ok] is true for a status from 200 to 299. *)
Record response := Response {
  status : Z;
  statusText : string;
  text : settled string }.

Definition ok (r : response) : bool := (200 <=? status r) && (status r <=? 299).

(** The collaborators the plugin calls: [path.join], the default snippets
    directory [path.resolve(process.cwd(), '_snippets')], [read] of to-vfile
    with the encoding utf8, [fetch], and the parser of a processor, which
    depends on the caller's processor it is built on ([None]: [remark()]),
    on the extensions attached, and on the text. *)
Record world := World {
  path_join : string -> string -> string;
  default_snippetsDir : string;
  read : string -> settled string;
  fetch : string -> settled response;
  parse : option string -> grammar -> string -> settled tree }.

(** Computations over the state that append to the trace; [None] is a
    computation that does not end within its fuel. *)
Definition M (A : Type) : Type := state -> option (A * state * list event).

Definition ret {A} (a : A) : M A := fun st => Some (a, st, []).

Definition bind {A B} (m : M A) (k : A -> M B) : M B := fun st =>
  match m st with
  | None => None
  | Some (a, st1, tr1) =>
      match k a st1 with
      | None => None
      | Some (b, st2, tr2) => Some (b, st2, tr1 ++ tr2)
      end
  end.

Notation "'let*' x := m 'in' k" := (bind m (fun x => k))
  (at level 10, x pattern, m at level 100, k at level 200).

Definition emit (e : event) : M unit := fun st => Some (tt, st, [e]).

Definition get_nodes : M heap := fun st => Some (nodes st, st, []).

Definition put_node (l : loc) (o : obj) : M unit := fun st =>
  Some (tt, {| nodes := <[l := o]> (nodes st); shared_attachers := shared_attachers st |}, []).

Definition place (t : tree) : M loc := fun st =>
  let '(l, h) := alloc t (nodes st) in
  Some (l, {| nodes := h; shared_attachers := shared_attachers st |}, []).

Definition promise (A : Type) : Type := M (settled A).

(** [p.then(f)] and [p.catch(f)] *)
Definition then_ {A B} (p : promise A) (f : A -> promise B) : promise B :=
  let* r := p in
  match r with
  | Fulfilled a => f a
  | Rejected e => ret (Rejected e)
  end.

Definition catch_ {A} (p : promise A) (f : string -> promise A) : promise A :=
  let* r := p in
  match r with
  | Fulfilled a => ret (Fulfilled a)
  | Rejected e => f e
  end.

(** [Promise.all] of promises that have settled: the first rejection, if
    there is one. *)
Fixpoint promise_all (rs : list (settled unit)) : settled unit :=
  match rs with
  | [] => Fulfilled tt
  | Fulfilled _ :: rs' => promise_all rs'
  | Rejected e :: _ => Rejected e
  end.

(** ** The plugin

    The transform is the one of the module that [fetchRemoteContent],
    [getFileExtension] and [isMarkdownExtension] belong to, which the tests
    exercise; src/index.js holds its earlier form, with local references
    only and every file parsed as markdown, and shares the visitor's checks,
    the replacement of the marker and the final [.catch] with it.

    Three conventions.  The promises of a queue settle in the order of the
    queue.  The caller's processor, when there is one, is not frozen, so
    [.use] on it succeeds.  The file system and the network answer the same
    way throughout a run. *)

Definition nl : string := String (ascii_of_nat 10) EmptyString.
Definition quote : string := String (ascii_of_nat 34) EmptyString.

(** [`${x}`] for a value that may be [undefined] *)
Definition show_string (x : option string) : string := default "undefined" x.
Definition show_number (x : option Z) : string :=
  match x with Some n => pretty n | None => "undefined" end.

(** [attributes.find(attr => attr.name === name)] *)
Definition find_attribute (name : string) (attributes : list attribute) : option attribute :=
  List.find (fun attr => match attr_name attr with
                         | Some n => String.eqb n name
                         | None => false
                         end) attributes.

(** [attr && typeof attr.value === 'string' ? attr.value : null] *)
Definition string_value (attr : option attribute) : option string :=
  match attr with
  | Some {| attr_val := AttrString s |} => Some s
  | _ => None
  end.

(** [a || b] where [a] is a string or [null] *)
Definition or_else (a : option string) (b : value) : value :=
  match a with
  | Some s => if Js.truthy s then VStr s else b
  | None => b
  end.

(** [value.startsWith('https://') || value.startsWith('http://')] *)
Definition isRemoteFile (fileValue : string) : bool :=
  Js.startsWith fileValue "https://" || Js.startsWith fileValue "http://".

(** What the visitor captures for a marker it queues: the node, the value
    of the file attribute, [lang] and [meta], the path or URL, and the
    promise of the content, already started. *)
Record task := Task {
  t_node : loc;
  t_fileValue : string;
  t_isRemoteFile : bool;
  t_lang : option string;
  t_meta : option string;
  t_filePath : string;
  t_content : settled snippet_file }.

(** How a call of the visitor ends. *)
Inductive visited :=
  | Ignored
  | Warned
  | Queued (t : task)
  | Threw (message : string).

(** [new VFile(...)]: the module imports [read], [remark], [remarkGfm],
    [remarkStringify], [remarkMdx] and [visit]; [VFile] is bound nowhere,
    so evaluating it throws a ReferenceError. *)
Definition new_VFile (content path : string) : settled vfile :=
  Rejected "VFile is not defined".

Section Plugin.

Context (w : world).

Definition resolve_options (o : options) : config :=
  {| snippetsDir := default (default_snippetsDir w) (opt_snippetsDir o);
     fileAttribute := default "file" (opt_fileAttribute o);
     elementName := default "Snippet" (opt_elementName o);
     unified := opt_processor o |}.

(** The options handed to the plugin for included content:
    [{snippetsDir, fileAttribute, elementName, processor: unified}]. *)
Definition nested_options (cfg : config) : options :=
  {| opt_snippetsDir := Some (snippetsDir cfg);
     opt_fileAttribute := Some (fileAttribute cfg);
     opt_elementName := Some (elementName cfg);
     opt_processor := unified cfg |}.

Definition fetchRemoteContent (url : string) : promise snippet_file :=
  let* _ := emit (FetchUrl url) in
  let attempt : settled snippet_file :=
    match fetch w url with
    | Rejected e => Rejected e
    | Fulfilled response =>
        if negb (ok response)
        then Rejected ("HTTP " +:+ pretty (status response) +:+ ": " +:+ statusText response)
        else match text response with
             | Fulfilled content => Fulfilled {| sf_value := content; sf_path := url |}
             | Rejected e => Rejected e
             end
    end in
  ret (match attempt with
       | Fulfilled snippetFile => Fulfilled snippetFile
       | Rejected errorMessage =>
           Rejected ("Failed to fetch remote content from " +:+ url +:+ ": " +:+ errorMessage)
       end).

(** [read(filePath, 'utf8')] of to-vfile *)
Definition read_file (filePath : string) : promise snippet_file :=
  let* _ := emit (ReadFile filePath) in
  ret (match read w filePath with
       | Fulfilled content => Fulfilled {| sf_value := content; sf_path := filePath |}
       | Rejected e => Rejected e
       end).

(** [unified ?? remark()].  [remark()] is a new processor with the markdown
    parser and [remarkStringify]. *)
Definition base (cfg : config) : processor :=
  match unified cfg with
  | Some _ => Shared
  | None => Fresh [remarkStringify]
  end.

(** [p.use(x)] configures [p] itself and returns it. *)
Definition use (p : processor) (x : plugin) : M processor :=
  match p with
  | Fresh ps => ret (Fresh (attach ps x))
  | Shared => fun st =>
      Some (Shared, {| nodes := nodes st;
                       shared_attachers := attach (shared_attachers st) x |}, [])
  end.

Fixpoint use_all (p : processor) (xs : list plugin) : M processor :=
  match xs with
  | [] => ret p
  | x :: xs' => let* p' := use p x in use_all p' xs'
  end.

(** [p()] is a copy of [p] with the attachers [p] has at that time. *)
Definition attachers_of (p : processor) : M (list plugin) :=
  match p with
  | Fresh ps => ret ps
  | Shared => fun st => Some (shared_attachers st, st, [])
  end.

(** [p().parse(text)]: the tree is built in the store. *)
Definition parse_with (cfg : config) (p : processor) (content : string) : promise loc :=
  let* ps := attachers_of p in
  match parse w (unified cfg) (grammar_of ps) content with
  | Fulfilled t => let* ast := place t in ret (Fulfilled ast)
  | Rejected e => ret (Rejected e)
  end.

(** [p().run(ast, file)]: of the plugins attached, the snippet plugin is
    the one with a transformer; it returns nothing, so the run gives back
    the tree it was given. *)
Definition run_with (rec : options -> vfile -> loc -> promise unit)
    (p : processor) (ast : loc) (file : vfile) : promise loc :=
  let* ps := attachers_of p in
  match snippet_options ps with
  | Some o => then_ (rec o file ast) (fun _ => ret (Fulfilled ast))
  | None => ret (Fulfilled ast)
  end.

Definition is_marker (cfg : config) (node : obj) : bool :=
  (has_type node flowElement || has_type node textElement)
  && has_name node (elementName cfg).

Definition missing_attribute (cfg : config) : string :=
  elementName cfg +:+ " tag missing required " +:+ quote +:+ fileAttribute cfg
    +:+ quote +:+ " attribute:".

(** The function passed to [visit]. *)
Definition visitor (cfg : config) (file : vfile) (l : loc) : M visited :=
  let* h := get_nodes in
  let node := object_at h l in
  if negb (is_marker cfg node) then ret Ignored
  else
    match node !! "attributes" with
    | Some (VAttrs attributes) =>
        match string_value (find_attribute (fileAttribute cfg) attributes) with
        | None =>
            let* _ := emit (WarnNode (missing_attribute cfg) l) in
            ret Warned
        | Some fileValue =>
            let lang := string_value (find_attribute "lang" attributes) in
            let meta := string_value (find_attribute "meta" attributes) in
            if isRemoteFile fileValue then
              let* content := fetchRemoteContent fileValue in
              ret (Queued (Task l fileValue true lang meta fileValue content))
            else
              let filePath := path_join w (snippetsDir cfg) fileValue in
              let* _ := if vf_compiler file then emit (AddDependency filePath) else ret tt in
              let* content := read_file filePath in
              ret (Queued (Task l fileValue false lang meta filePath content))
        end
    | _ => ret (Threw "Cannot read properties of undefined (reading 'find')")
    end.

Definition codeBlockNode (t : task) (extension : string) (snippetFile : snippet_file) : tree :=
  Tree {[ "type" := VStr "code";
          "lang" := or_else (t_lang t)
                      (if Js.truthy extension then VStr extension else VNull);
          "meta" := or_else (t_meta t) VNull;
          "value" := if Js.truthy (sf_value snippetFile)
                     then VStr (sf_value snippetFile)
                     else VFile (sf_value snippetFile) (sf_path snippetFile) ]}
       None.

(** The first [.then] of a marker's promise: from the file to the tree that
    replaces the marker.  [rec] is the plugin, as [.use(mdxSnippet, ...)]
    attaches it again.  Both [content] and the file objects given to a
    parser carry the text [snippetFile.value], which is what gets parsed. *)
Definition produce (rec : options -> vfile -> loc -> promise unit)
    (cfg : config) (t : task) (snippetFile : snippet_file) : promise loc :=
  let sourceFile := t_fileValue t in
  let extension := getFileExtension sourceFile in
  if isMarkdownExtension extension then
    if t_isRemoteFile t then
      let content := sf_value snippetFile in
      let* gfmProcessor :=
        use_all (base cfg)
          [remarkGfm; remarkStringify; snippetPlugin (nested_options cfg)] in
      let* basicProcessor :=
        use_all (base cfg) [remarkStringify; snippetPlugin (nested_options cfg)] in
      (* try { vfile = new VFile(...); ast = gfmProcessor().parse(vfile); ... } *)
      let* attempt :=
        match new_VFile content sourceFile with
        | Fulfilled file =>
            then_ (parse_with cfg gfmProcessor content)
                  (fun ast => ret (Fulfilled (ast, file)))
        | Rejected e => ret (Rejected e)
        end in
      match attempt with
      | Fulfilled (ast, file) => run_with rec gfmProcessor ast file
      | Rejected errorMessage =>
          let* _ := emit (WarnText "GFM processing failed, falling back to basic markdown:"
                                   errorMessage) in
          then_ (parse_with cfg basicProcessor content)
                (fun ast => run_with rec basicProcessor ast
                              {| vf_path := Some sourceFile; vf_compiler := false |})
      end
    else
      let* snippetProcessor :=
        use_all (base cfg)
          [remarkGfm; remarkStringify; remarkMdx; snippetPlugin (nested_options cfg)] in
      then_ (parse_with cfg snippetProcessor (sf_value snippetFile))
            (fun ast => run_with rec snippetProcessor ast
                          {| vf_path := Some (sf_path snippetFile); vf_compiler := false |})
  else
    let* result :=
      place (Tree {[ "type" := VStr "root" ]}
                  (Some [codeBlockNode t extension snippetFile])) in
    ret (Fulfilled result).

Definition fragment (children : list loc) : obj :=
  {[ "type" := VStr flowElement;
     "name" := VNull;
     "attributes" := VAttrs [];
     "children" := VNodes children ]}.

(** The second [.then]: the marker takes the fields of the only child of
    the result, or becomes a fragment around its children. *)
Definition splice (t : task) (result : loc) : promise unit :=
  let* h := get_nodes in
  let node := object_at h (t_node t) in
  match object_at h result !! "children" with
  | Some (VNodes children) =>
      match children with
      | [child] =>
          let* _ := put_node (t_node t) (assign node (object_at h child)) in
          ret (Fulfilled tt)
      | _ =>
          let* _ := put_node (t_node t) (assign node (fragment children)) in
          ret (Fulfilled tt)
      end
  | _ => ret (Rejected "Cannot read properties of undefined (reading 'length')")
  end.

Definition error_report (cfg : config) (file : vfile) (t : task) (node : obj)
    (errorMessage : string) : event :=
  let sourcePath :=
    if t_isRemoteFile t then t_fileValue t
    else path_join w (snippetsDir cfg) (t_fileValue t) in
  ErrorLog
    [ "Error reading snippet file:";
      nl +:+ nl +:+ "Snippet at: " +:+ show_string (vf_path file) +:+ ":"
         +:+ show_number (start_line node) +:+ ":" +:+ show_number (start_column node);
      nl +:+ (if t_isRemoteFile t then "Remote URL" else "File path") +:+ ": " +:+ sourcePath;
      nl +:+ "Error: " +:+ errorMessage ].

(** The [.catch] that ends a marker's promise. *)
Definition report (cfg : config) (file : vfile) (t : task) (errorMessage : string)
  : promise unit :=
  let* h := get_nodes in
  let* _ := emit (error_report cfg file t (object_at h (t_node t)) errorMessage) in
  ret (Fulfilled tt).

(** The promise the visitor pushes on the queue for a marker. *)
Definition expansion (rec : options -> vfile -> loc -> promise unit)
    (cfg : config) (file : vfile) (t : task) : promise unit :=
  catch_ (then_ (then_ (ret (t_content t)) (produce rec cfg t)) (splice t))
         (report cfg file t).

(** The walk of [visit]: the visitor runs on each node in turn and the walk
    stops at the first call that throws.  The queue holds the markers met
    up to there. *)
Fixpoint visit_all (cfg : config) (file : vfile) (ls : list loc)
  : M (list task * option string) :=
  match ls with
  | [] => ret ([], None)
  | l :: ls' =>
      let* v := visitor cfg file l in
      match v with
      | Threw e => ret ([], Some e)
      | Queued t =>
          let* walked := visit_all cfg file ls' in
          ret (t :: fst walked, snd walked)
      | Ignored | Warned => visit_all cfg file ls'
      end
  end.

(** The promises of the queue settle one after the other, in the order of
    the queue. *)
Fixpoint settle_all (rec : options -> vfile -> loc -> promise unit)
    (cfg : config) (file : vfile) (queue : list task) : M (list (settled unit)) :=
  match queue with
  | [] => ret []
  | t :: queue' =>
      let* r := expansion rec cfg file t in
      let* rs := settle_all rec cfg file queue' in
      ret (r :: rs)
  end.

Definition jsx_types : list string := [flowElement; textElement].

(** The transformer [mdxSnippet(options)] returns.  An exception of the
    visitor rejects the transformer's promise; the promises queued before
    still settle. *)
Definition transformer (rec : options -> vfile -> loc -> promise unit)
    (depth : nat) (cfg : config) (file : vfile) (tree : loc) : promise unit :=
  fun st =>
    match visit depth (nodes st) tree jsx_types with
    | None => None
    | Some found =>
        (let* walked := visit_all cfg file found in
         let* results := settle_all rec cfg file (fst walked) in
         ret (match snd walked with
              | Some e => Rejected e
              | None => promise_all results
              end)) st
    end.

(** [mdxSnippet(options)(tree, file)].  The fuel bounds the depth of the
    tree walked and the depth of inclusion; [None] stands for a transform
    that needs more. *)
Fixpoint mdxSnippet (fuel : nat) (o : options) (file : vfile) (tree : loc)
  : promise unit :=
  match fuel with
  | O => fun _ => None
  | S n => transformer (mdxSnippet n) n (resolve_options o) file tree
  end.

End Plugin.

(** ** A small world to run the plugin in

    A few local files and remote pages, and the parser's answers on their
    texts: without the MDX extension a JSX tag on a line of its own is an
    [html] node, with it a flow element. *)
Module Sample.

Definition text_node (s : string) : tree :=
  Tree {[ "type" := VStr "text"; "value" := VStr s ]} None.

Definition paragraph (s : string) : tree :=
  Tree {[ "type" := VStr "paragraph" ]} (Some [text_node s]).

Definition heading (depth : Z) (s : string) : tree :=
  Tree {[ "type" := VStr "heading"; "depth" := VNum depth ]} (Some [text_node s]).

Definition root (ts : list tree) : tree :=
  Tree {[ "type" := VStr "root" ]} (Some ts).

Definition element (name : string) (attributes : list attribute) (line : Z)
    (ts : list tree) : tree :=
  Tree {[ "type" := VStr flowElement; "name" := VStr name;
          "attributes" := VAttrs attributes; "position" := VPos line 1 ]} (Some ts).

Definition attr (name value : string) : attribute :=
  {| attr_name := Some name; attr_val := AttrString value |}.

Definition snippet (file : string) (line : Z) : tree :=
  element "Snippet" [attr "file" file] line [].

(** [<Snippet file="child.mdx" />] *)
Definition nested_text : string :=
  "<Snippet file=" +:+ quote +:+ "child.mdx" +:+ quote +:+ " />".

(** [# Title], a blank line, [Body] *)
Definition two_text : string := "# Title" +:+ nl +:+ nl +:+ "Body".

Definition files : list (string * string) :=
  [ ("/docs/_snippets/child.mdx", "hello");
    ("/docs/_snippets/nested.mdx", nested_text);
    ("/docs/_snippets/directory/outer.mdx", nested_text);
    ("/docs/_snippets/two.mdx", two_text);
    ("/docs/_snippets/script.js", "x = 1");
    ("/docs/_snippets/empty.txt", EmptyString) ].

Definition pages : list (string * string) :=
  [ ("https://example.com/nested.md", nested_text);
    ("https://example.com/two.md", two_text);
    ("https://example.com/script.js", "x = 1") ].

Fixpoint lookup_text (table : list (string * string)) (key : string) : option string :=
  match table with
  | [] => None
  | (k, v) :: table' => if String.eqb k key then Some v else lookup_text table' key
  end.

Definition sample_parse (_ : option string) (g : grammar) (s : string) : settled tree :=
  if String.eqb s nested_text then
    Fulfilled (root [if mdx g then snippet "child.mdx" 1
                     else Tree {[ "type" := VStr "html"; "value" := VStr s ]} None])
  else if String.eqb s two_text then
    Fulfilled (root [heading 1 "Title"; paragraph "Body"])
  else if String.eqb s EmptyString then Fulfilled (root [])
  else Fulfilled (root [paragraph s]).

Definition sample : world :=
  {| path_join := fun dir file => dir +:+ "/" +:+ file;
     default_snippetsDir := "/docs/_snippets";
     read := fun p =>
       match lookup_text files p with
       | Some s => Fulfilled s
       | None => Rejected ("ENOENT: no such file or directory, open '" +:+ p +:+ "'")
       end;
     fetch := fun url =>
       match lookup_text pages url with
       | Some s => Fulfilled {| status := 200; statusText := "OK"; text := Fulfilled s |}
       | None => Fulfilled {| status := 404; statusText := "Not Found";
                              text := Fulfilled "Not Found" |}
       end;
     parse := sample_parse |}.

Definition no_options : options := Options None None None None.

Definition document : vfile := {| vf_path := Some "/docs/page.mdx"; vf_compiler := false |}.

(** A document placed in an empty store; its root is at location [0] and
    its nodes follow in pre-order. *)
Definition store_of (t : tree) : state :=
  {| nodes := snd (alloc t ∅); shared_attachers := [] |}.

(** What the visitor queues for [<Snippet file="..." />] at [l] when the
    file is local. *)
Definition local_task (l : loc) (file : string) : task :=
  let filePath := path_join sample (default_snippetsDir sample) file in
  {| t_node := l; t_fileValue := file; t_isRemoteFile := false;
     t_lang := None; t_meta := None; t_filePath := filePath;
     t_content := match read sample filePath with
                  | Fulfilled content => Fulfilled {| sf_value := content; sf_path := filePath |}
                  | Rejected e => Rejected e
                  end |}.

End Sample.

(** ** Further documents in the sample world *)
Module Cases.

Import Sample.

(** A document compiled by a bundler that tracks dependencies. *)
Definition compiled : vfile := {| vf_path := Some "/docs/page.mdx"; vf_compiler := true |}.

(** A page with a JSX element that is no marker. *)
Definition plain : tree :=
  root [heading 1 "Title"; element "Note" [] 3 [paragraph "Body"]].

(** A page that includes nested.mdx twice, with a remote page in between. *)
Definition twice : tree :=
  root [snippet "nested.mdx" 1; snippet "https://example.com/two.md" 3;
        snippet "nested.mdx" 5].

(** A snippet that includes itself: [<Snippet file="loop.mdx" />] *)
Definition loop_text : string :=
  "<Snippet file=" +:+ quote +:+ "loop.mdx" +:+ quote +:+ " />".

Definition looping : world :=
  {| path_join := path_join sample;
     default_snippetsDir := default_snippetsDir sample;
     read := fun p =>
       if String.eqb p "/docs/_snippets/loop.mdx" then Fulfilled loop_text
       else read sample p;
     fetch := fetch sample;
     parse := fun processor g s =>
       if String.eqb s loop_text then
         Fulfilled (root [if mdx g then snippet "loop.mdx" 1
                          else Tree {[ "type" := VStr "html"; "value" := VStr s ]} None])
       else sample_parse processor g s |}.

End Cases.

(** ** Vocabulary of the properties

    Definitions the statements and proofs below use.  Among them a small
    logic of computations: [K] is a set of locations to be left alone; a
    state is [protected] when every location of [K] holds a node the
    visitor does not queue; a computation satisfies a [triple] when, from a
    protected state meeting the precondition, it leaves the objects at [K]
    as they are, prints only [expected] events, and ends in a state meeting
    the postcondition. *)

(** The index of the last character satisfying [p]. *)
Fixpoint last_pos (p : ascii -> bool) (s : string) : option nat :=
  match s with
  | EmptyString => None
  | String a s' =>
      match last_pos p s' with
      | Some k => Some (S k)
      | None => if p a then Some O else None
      end
  end.

Definition index_or_minus_one (k : option nat) : Z :=
  match k with Some k => Z.of_nat k | None => -1 end.

(** Placing the children of a parent, one after the other. *)
Fixpoint alloc_all (ts : list tree) (h : heap) : list loc * heap :=
  match ts with
  | [] => ([], h)
  | t :: ts' =>
      let '(c, h1) := alloc t h in
      let '(cs, h2) := alloc_all ts' h1 in
      (c :: cs, h2)
  end.

(** The nodes the visitor queues: markers whose file attribute is a string. *)
Definition queues (cfg : config) (node : obj) : bool :=
  is_marker cfg node &&
  match node !! "attributes" with
  | Some (VAttrs attributes) =>
      match string_value (find_attribute (fileAttribute cfg) attributes) with
      | Some _ => true
      | None => false
      end
  | _ => false
  end.

(** Reads and dependencies are under [snippetsDir]; a warning about a node
    names the configured element and attribute. *)
Definition expected (w : world) (cfg : config) (e : event) : Prop :=
  match e with
  | ReadFile p | AddDependency p => exists ref, p = path_join w (snippetsDir cfg) ref
  | WarnNode message _ => message = missing_attribute cfg
  | _ => True
  end.

Definition protected (cfg : config) (K : loc -> Prop) (s : state) : Prop :=
  forall l, K l -> exists node, nodes s !! l = Some node /\ queues cfg node = false.

Definition agree (K : loc -> Prop) (s s' : state) : Prop :=
  forall l, K l -> nodes s' !! l = nodes s !! l.

Definition triple (w : world) (cfg : config) (K : loc -> Prop) {A}
    (P : state -> Prop) (m : M A) (Q : A -> state -> Prop) : Prop :=
  forall s a s' tr,
    protected cfg K s -> P s -> m s = Some (a, s', tr) ->
    agree K s s' /\ Forall (expected w cfg) tr /\ Q a s'.

Definition attach_all (ps : list plugin) (xs : list plugin) : list plugin :=
  fold_left attach xs ps.

(** The attachers a copy [p()] made in state [s] has. *)
Definition attachers (p : processor) (s : state) : list plugin :=
  match p with
  | Fresh ps => ps
  | Shared => shared_attachers s
  end.

Definition with_attachers (s : state) (ps : list plugin) : state :=
  {| nodes := nodes s; shared_attachers := ps |}.

(** The processor carries the plugin with the options of this run. *)
Definition configured (cfg : config) (p : processor) (s : state) : Prop :=
  snippet_options (attachers p s) = Some (nested_options cfg).

(** What [fetchRemoteContent(url)] settles to. *)
Definition fetched (w : world) (url : string) : settled snippet_file :=
  let failure cause :=
    Rejected ("Failed to fetch remote content from " +:+ url +:+ ": " +:+ cause) in
  match fetch w url with
  | Rejected cause => failure cause
  | Fulfilled response =>
      if ok response then
        match text response with
        | Fulfilled content => Fulfilled {| sf_value := content; sf_path := url |}
        | Rejected cause => failure cause
        end
      else failure ("HTTP " +:+ pretty (status response) +:+ ": " +:+ statusText response)
  end.

(** What [read(filePath, 'utf8')] settles to. *)
Definition was_read (w : world) (filePath : string) : settled snippet_file :=
  match read w filePath with
  | Fulfilled content => Fulfilled {| sf_value := content; sf_path := filePath |}
  | Rejected e => Rejected e
  end.

(** The content promise of a queued marker is the fetch of its URL or the
    read of its file under [snippetsDir]. *)
Definition resolved (w : world) (cfg : config) (t : task) : Prop :=
  t_content t =
  if t_isRemoteFile t then fetched w (t_fileValue t)
  else was_read w (path_join w (snippetsDir cfg) (t_fileValue t)).

(** What the marker's fields are overwritten with. *)
Definition replacement (h : heap) (children : list loc) : obj :=
  match children with
  | [child] => object_at h child
  | _ => fragment children
  end.

Definition write_node (s : state) (l : loc) (o : obj) : state :=
  {| nodes := <[l := o]> (nodes s); shared_attachers := shared_attachers s |}.

(** ** Vocabulary of the further properties *)

(** The reads and requests of a trace, and its registrations. *)
Definition is_request (e : event) : bool :=
  match e with ReadFile _ | FetchUrl _ => true | _ => false end.

Definition is_dependency (e : event) : bool :=
  match e with AddDependency _ => true | _ => false end.

(** The read or request a queued marker starts, and the dependency a local
    one registers. *)
Definition request_of (t : task) : event :=
  if t_isRemoteFile t then FetchUrl (t_fileValue t) else ReadFile (t_filePath t).

Definition dependency_of (t : task) : event := AddDependency (t_filePath t).

Definition is_local (t : task) : bool := negb (t_isRemoteFile t).

Definition attached (x : plugin) (ps : list plugin) : bool := existsb (same_plugin x) ps.

(** A computation [keeps] a property [J] of the attachers of the caller's
    processor and prints only events of [G]. *)
Definition keeps (J : list plugin -> Prop) (G : event -> Prop) {A} (m : M A) : Prop :=
  forall s a s' tr,
    J (shared_attachers s) -> m s = Some (a, s', tr) ->
    J (shared_attachers s') /\ Forall G tr.

(** The state in which a chain [(unified ?? remark()).use(x1)...use(xn)]
    leaves the caller's processor, and the attachers of its result. *)
Definition after_use (cfg : config) (xs : list plugin) (s : state) : state :=
  match unified cfg with
  | Some _ => with_attachers s (attach_all (shared_attachers s) xs)
  | None => s
  end.

Definition used (cfg : config) (xs : list plugin) (s : state) : list plugin :=
  match unified cfg with
  | Some _ => attach_all (shared_attachers s) xs
  | None => attach_all [remarkStringify] xs
  end.

(** The extensions a remote markdown text is parsed with: those of a new
    [remark()], or those the caller's processor has once GFM is attached. *)
Definition remote_grammar (cfg : config) (s : state) : grammar :=
  match unified cfg with
  | Some _ => {| gfm := true; mdx := attached remarkMdx (shared_attachers s) |}
  | None => {| gfm := false; mdx := false |}
  end.

Definition gfm_failed : event :=
  WarnText "GFM processing failed, falling back to basic markdown:" "VFile is not defined".

(** The state after a tree has been placed in the store. *)
Definition placed (t : tree) (s : state) : state :=
  {| nodes := (alloc t (nodes s)).2; shared_attachers := shared_attachers s |}.

(** * Properties *)

(** A goal about a run in the sample world is settled by running it. *)
Ltac by_running := vm_compute; reflexivity.

(** ** The extension classifier *)

Example getFileExtension_mdx : getFileExtension "directory/dir.MDX" = "mdx".
Proof. reflexivity. Qed.

Example getFileExtension_dockerfile : getFileExtension "https://example.com/Dockerfile" = "".
Proof. reflexivity. Qed.

Example getFileExtension_dotted_dir : getFileExtension "a.b\c" = "".
Proof. reflexivity. Qed.

Section Classifier.

Lemma lastIndexOf_from_last_pos c s i acc :
  Js.lastIndexOf_from c s i acc =
  match last_pos (fun a => Ascii.eqb a c) s with
  | Some k => i + Z.of_nat k
  | None => acc
  end.
Proof.
  revert i acc. induction s as [|a s IH]; intros i acc; simpl; [reflexivity|].
  rewrite IH. destruct (last_pos _ s) as [k|].
  - lia.
  - destruct (Ascii.eqb a c); [lia | reflexivity].
Qed.

Lemma lastIndexOf_last_pos c s :
  Js.lastIndexOf c s = index_or_minus_one (last_pos (fun a => Ascii.eqb a c) s).
Proof.
  unfold Js.lastIndexOf. rewrite lastIndexOf_from_last_pos.
  destruct (last_pos _ s); simpl; lia.
Qed.




Lemma last_pos_drop p s n :
  last_pos p (Js.drop n s) =
  match last_pos p s with
  | Some k => if (n <=? k)%nat then Some (k - n)%nat else None
  | None => None
  end.
Proof.
  revert n. induction s as [|a s IH]; intros n.
  - destruct n; reflexivity.
  - destruct n as [|n].
    + simpl Js.drop. destruct (last_pos p (String a s)) as [k|]; [|reflexivity].
      simpl. f_equal. lia.
    + simpl. rewrite IH. destruct (last_pos p s) as [k|].
      * reflexivity.
      * destruct (p a); reflexivity.
Qed.


Lemma lower_char_idem c : Js.lower_char (Js.lower_char c) = Js.lower_char c.
Proof. destruct c as [[] [] [] [] [] [] [] []]; reflexivity. Qed.

Lemma toLowerCase_idem s : Js.toLowerCase (Js.toLowerCase s) = Js.toLowerCase s.
Proof. induction s as [|c s IH]; simpl; [reflexivity|]. by rewrite lower_char_idem, IH. Qed.

Lemma getFileExtension_lower s : Js.toLowerCase (getFileExtension s) = getFileExtension s.
Proof.
  unfold getFileExtension. destruct (_ || _); [reflexivity | apply toLowerCase_idem].
Qed.


End Classifier.


(** ** Laws of the store and of computations *)

Lemma alloc_parent fields ts h :
  alloc (Tree fields (Some ts)) h =
  let l := fresh (dom h) in
  let '(ls, h') := alloc_all ts (<[l := fields]> h) in
  (l, <[l := <["children" := VNodes ls]> fields]> h').
Proof. reflexivity. Qed.

Lemma alloc_leaf fields h :
  alloc (Tree fields None) h = (fresh (dom h), <[fresh (dom h) := fields]> h).
Proof. reflexivity. Qed.

Lemma fresh_lookup (h : heap) : h !! fresh (dom h) = None.
Proof. apply not_elem_of_dom, is_fresh. Qed.

(** Induction on trees, with the property available for every child. *)
Section TreeInduction.

Variable P : tree -> Prop.
Hypothesis leaf_case : forall fields, P (Tree fields None).
Hypothesis parent_case : forall fields ts, Forall P ts -> P (Tree fields (Some ts)).

Lemma tree_induction : forall t, P t.
Proof.
  exact (fix induct (t : tree) : P t :=
           match t with
           | Tree fields None => leaf_case fields
           | Tree fields (Some ts) =>
               parent_case fields ts
                 ((fix all (ts : list tree) : Forall P ts :=
                     match ts with
                     | [] => Forall_nil_2 P
                     | t :: ts' => Forall_cons_2 P t ts' (induct t) (all ts')
                     end) ts)
           end).
Qed.

End TreeInduction.

(** Placing a tree leaves the objects already in the store as they are. *)
Lemma alloc_keeps t : forall h l, is_Some (h !! l) -> (alloc t h).2 !! l = h !! l.
Proof.
  induction t as [fields|fields ts IH] using tree_induction; intros h l Hl.
  - rewrite alloc_leaf. simpl. rewrite lookup_insert_ne; [done|].
    intros <-. rewrite fresh_lookup in Hl. by destruct Hl.
  - rewrite alloc_parent. cbv zeta.
    assert (forall h, is_Some (h !! l) -> (alloc_all ts h).2 !! l = h !! l) as Hall.
    { clear -IH. induction IH as [|t ts Ht _ IHts]; intros h Hl; simpl; [reflexivity|].
      specialize (Ht h l Hl).
      destruct (alloc t h) as [c h1]. simpl in Ht.
      assert (is_Some (h1 !! l)) as Hl1 by (by rewrite Ht).
      specialize (IHts h1 Hl1). destruct (alloc_all ts h1) as [cs h2]. simpl in *.
      by rewrite IHts. }
    assert (fresh (dom h) <> l) as Hne.
    { intros <-. rewrite fresh_lookup in Hl. by destruct Hl. }
    specialize (Hall (<[fresh (dom h) := fields]> h)).
    destruct (alloc_all ts _) as [ls h']. simpl in *.
    rewrite lookup_insert_ne by done.
    rewrite Hall; rewrite lookup_insert_ne by done; done.
Qed.

Lemma bind_Some {A B} (m : M A) (k : A -> M B) s b s' tr :
  bind m k s = Some (b, s', tr) <->
  exists a s1 tr1 tr2,
    m s = Some (a, s1, tr1) /\ k a s1 = Some (b, s', tr2) /\ tr = tr1 ++ tr2.
Proof.
  unfold bind. split.
  - destruct (m s) as [[[a s1] tr1]|]; [|discriminate].
    destruct (k a s1) as [[[b' s2] tr2]|] eqn:E; [|discriminate].
    intros [= -> -> <-]. by exists a, s1, tr1, tr2.
  - intros (a & s1 & tr1 & tr2 & -> & -> & ->). reflexivity.
Qed.

Lemma bind_ret_l {A B} (a : A) (k : A -> M B) s : bind (ret a) k s = k a s.
Proof. unfold bind, ret. destruct (k a s) as [[[b s2] tr2]|]; reflexivity. Qed.

Lemma bind_run {A B} (m : M A) (k : A -> M B) s a s1 tr1 :
  m s = Some (a, s1, tr1) ->
  bind m k s = match k a s1 with
               | Some (b, s2, tr2) => Some (b, s2, tr1 ++ tr2)
               | None => None
               end.
Proof. unfold bind. by intros ->. Qed.

(** ** What a run may write and print *)

Section Logic.

Context (w : world) (cfg : config) (K : loc -> Prop).

Abbreviation expected := (expected w cfg).
Abbreviation protected := (protected cfg K).
Abbreviation agree := (agree K).
Abbreviation triple := (triple w cfg K).

Lemma agree_refl s : agree s s.
Proof. by intros l _. Qed.

Lemma agree_trans s1 s2 s3 : agree s1 s2 -> agree s2 s3 -> agree s1 s3.
Proof. intros H12 H23 l Hl. by rewrite (H23 l Hl), (H12 l Hl). Qed.

Lemma protected_agree s s' : protected s -> agree s s' -> protected s'.
Proof. intros Hp Ha l Hl. rewrite (Ha l Hl). by apply Hp. Qed.

Lemma triple_ret {A} (P : state -> Prop) (a : A) (Q : A -> state -> Prop) :
  (forall s, P s -> Q a s) -> triple P (ret a) Q.
Proof.
  intros HQ s a' s' tr _ HP [= <- <- <-]. split; [apply agree_refl|]. split; [constructor|auto].
Qed.

Lemma triple_bind {A B} (P : state -> Prop) (m : M A) (Q : A -> state -> Prop)
    (k : A -> M B) (R : B -> state -> Prop) :
  triple P m Q -> (forall a, triple (Q a) (k a) R) -> triple P (bind m k) R.
Proof.
  intros Hm Hk s b s' tr Hp HP Hrun.
  apply bind_Some in Hrun as (a & s1 & tr1 & tr2 & Hm1 & Hk1 & ->).
  destruct (Hm _ _ _ _ Hp HP Hm1) as (Ha1 & He1 & HQ).
  destruct (Hk a _ _ _ _ (protected_agree _ _ Hp Ha1) HQ Hk1) as (Ha2 & He2 & HR).
  split; [eapply agree_trans; eauto|]. split; [by apply Forall_app|done].
Qed.

Lemma triple_weaken {A} (P P' : state -> Prop) (m : M A) (Q Q' : A -> state -> Prop) :
  triple P' m Q' -> (forall s, P s -> P' s) -> (forall a s, Q' a s -> Q a s) ->
  triple P m Q.
Proof.
  intros Hm HP HQ s a s' tr Hp HPs Hrun.
  destruct (Hm _ _ _ _ Hp (HP _ HPs) Hrun) as (? & ? & ?). auto.
Qed.

Lemma triple_emit (P : state -> Prop) e :
  expected e -> triple P (emit e) (fun _ s => P s).
Proof.
  intros He s [] s' tr _ HP [= <- <-].
  split; [apply agree_refl|]. split; [by repeat constructor|done].
Qed.

Lemma triple_get_nodes (P : state -> Prop) :
  triple P get_nodes (fun h s => P s /\ h = nodes s /\ protected s).
Proof.
  intros s h s' tr Hp HP [= <- <- <-].
  split; [apply agree_refl|]. split; [constructor|done].
Qed.

(** A write outside [K] is allowed. *)
Lemma triple_put_node (P : state -> Prop) l o :
  ~ K l -> triple P (put_node l o) (fun _ _ => True).
Proof.
  intros HK s [] s' tr _ _ [= <- <-].
  split; [|split; [constructor|done]].
  intros l' Hl'. simpl. rewrite lookup_insert_ne; [done|]. by intros ->.
Qed.

Lemma place_run t s :
  place t s = Some ((alloc t (nodes s)).1,
                    {| nodes := (alloc t (nodes s)).2;
                       shared_attachers := shared_attachers s |}, []).
Proof. unfold place. by destruct (alloc t (nodes s)). Qed.

Lemma triple_place (P : list plugin -> Prop) t :
  triple (fun s => P (shared_attachers s)) (place t) (fun _ s => P (shared_attachers s)).
Proof.
  intros s l s' tr Hp HP Hrun. rewrite place_run in Hrun. injection Hrun as <- <- <-.
  split; [|split; [constructor|done]].
  intros l' Hl'. simpl. apply alloc_keeps.
  destruct (Hp l' Hl') as (node & -> & _). by eexists.
Qed.

End Logic.

(** ** The plugin's steps, one by one *)

Lemma use_all_run p xs s :
  use_all p xs s =
  Some (match p with Fresh ps => Fresh (attach_all ps xs) | Shared => Shared end,
        match p with
        | Fresh _ => s
        | Shared => with_attachers s (attach_all (shared_attachers s) xs)
        end, []).
Proof.
  revert p s. induction xs as [|x xs IH]; intros p s.
  - destruct p, s; reflexivity.
  - cbn [use_all]. destruct p as [ps|].
    + erewrite bind_run by reflexivity. rewrite IH. reflexivity.
    + erewrite bind_run by reflexivity. rewrite IH. reflexivity.
Qed.

Lemma attachers_of_run p s : attachers_of p s = Some (attachers p s, s, []).
Proof. by destruct p. Qed.

Lemma parse_with_run w cfg p content s :
  parse_with w cfg p content s =
  match parse w (unified cfg) (grammar_of (attachers p s)) content with
  | Fulfilled t =>
      Some (Fulfilled (alloc t (nodes s)).1,
            {| nodes := (alloc t (nodes s)).2; shared_attachers := shared_attachers s |},
            [])
  | Rejected e => Some (Rejected e, s, [])
  end.
Proof.
  unfold parse_with. rewrite (bind_run _ _ _ _ _ _ (attachers_of_run p s)).
  destruct (parse w _ _ _) as [t|e]; [|reflexivity].
  unfold bind, place, ret. by destruct (alloc t (nodes s)).
Qed.

Lemma snippet_options_attach ps o :
  snippet_options (attach ps (snippetPlugin o)) = Some o.
Proof.
  unfold snippet_options. induction ps as [|q ps IH]; [reflexivity|].
  simpl. destruct q; simpl; try exact IH. reflexivity.
Qed.

Lemma resolve_nested_options w cfg : resolve_options w (nested_options cfg) = cfg.
Proof. by destruct cfg. Qed.

Lemma then_run {A B} (p : promise A) (f : A -> promise B) s r s1 tr1 :
  p s = Some (r, s1, tr1) ->
  then_ p f s =
  match r with
  | Fulfilled a =>
      match f a s1 with
      | Some (b, s2, tr2) => Some (b, s2, tr1 ++ tr2)
      | None => None
      end
  | Rejected e => Some (Rejected e, s1, tr1)
  end.
Proof.
  intros Hp. unfold then_. rewrite (bind_run _ _ _ _ _ _ Hp).
  destruct r; [reflexivity|]. unfold ret. by rewrite app_nil_r.
Qed.

Lemma catch_run {A} (p : promise A) (f : string -> promise A) s r s1 tr1 :
  p s = Some (r, s1, tr1) ->
  catch_ p f s =
  match r with
  | Fulfilled a => Some (Fulfilled a, s1, tr1)
  | Rejected e =>
      match f e s1 with
      | Some (b, s2, tr2) => Some (b, s2, tr1 ++ tr2)
      | None => None
      end
  end.
Proof.
  intros Hp. unfold catch_. rewrite (bind_run _ _ _ _ _ _ Hp).
  destruct r; [|reflexivity]. unfold ret. by rewrite app_nil_r.
Qed.

Section Steps.

Context (w : world) (cfg : config) (K : loc -> Prop).

Abbreviation triple := (triple w cfg K).
Abbreviation configured := (configured cfg).

Lemma triple_then {A B} (P : state -> Prop) (p : promise A) (Q : settled A -> state -> Prop)
    (f : A -> promise B) (R : settled B -> state -> Prop) :
  triple P p Q ->
  (forall a, triple (Q (Fulfilled a)) (f a) R) ->
  (forall e s, Q (Rejected e) s -> R (Rejected e) s) ->
  triple P (then_ p f) R.
Proof.
  intros Hp Hf Hrej. apply (triple_bind _ _ _ _ _ Q); [exact Hp|].
  intros [a|e]; [apply Hf|]. apply triple_ret, Hrej.
Qed.

Lemma triple_catch {A} (P : state -> Prop) (p : promise A) (Q : settled A -> state -> Prop)
    (f : string -> promise A) (R : settled A -> state -> Prop) :
  triple P p Q ->
  (forall e, triple (Q (Rejected e)) (f e) R) ->
  (forall a s, Q (Fulfilled a) s -> R (Fulfilled a) s) ->
  triple P (catch_ p f) R.
Proof.
  intros Hp Hf Hok. apply (triple_bind _ _ _ _ _ Q); [exact Hp|].
  intros [a|e]; [|apply Hf]. apply triple_ret, Hok.
Qed.

Lemma triple_use_all p xs :
  triple (fun _ => True)
    (use_all p (xs ++ [snippetPlugin (nested_options cfg)]))
    (fun p' s => configured p' s).
Proof.
  intros s p' s' tr _ _ Hrun. rewrite use_all_run in Hrun. injection Hrun as <- <- <-.
  split; [|split; [constructor|]].
  - intros l _. by destruct p.
  - unfold configured, attach_all.
    destruct p; simpl; rewrite fold_left_app; apply snippet_options_attach.
Qed.

Lemma triple_parse_with p content :
  triple (configured p) (parse_with w cfg p content) (fun _ s => configured p s).
Proof.
  unfold parse_with.
  apply (triple_bind _ _ _ _ _ (fun _ s => configured p s)).
  - intros s ps s' tr _ HP Hrun. rewrite attachers_of_run in Hrun.
    injection Hrun as <- <- <-. split; [apply agree_refl|]. split; [constructor|done].
  - intros ps. destruct (parse w _ _ _) as [t|e]; [|by apply triple_ret].
    apply (triple_bind _ _ _ _ _ (fun _ s => configured p s)); [|intros; by apply triple_ret].
    unfold configured. destruct p as [ps'|]; simpl.
    + apply (triple_place w cfg K (fun _ => snippet_options ps' = Some (nested_options cfg))).
    + apply (triple_place w cfg K (fun sa => snippet_options sa = Some (nested_options cfg))).
Qed.

Section Recursive.

Context (rec : options -> vfile -> loc -> promise unit).
Hypothesis rec_triple :
  forall file root, triple (fun _ => True) (rec (nested_options cfg) file root)
                           (fun _ _ => True).

Lemma triple_run_with p ast file :
  triple (configured p) (run_with rec p ast file) (fun _ _ => True).
Proof.
  intros s r s' tr Hp HP Hrun. unfold run_with in Hrun.
  rewrite (bind_run _ _ _ _ _ _ (attachers_of_run p s)) in Hrun. simpl in Hrun.
  unfold configured in HP. rewrite HP in Hrun.
  assert (triple (fun _ => True)
            (then_ (rec (nested_options cfg) file ast)
                   (fun _ => ret (Fulfilled ast))) (fun _ _ => True)) as Ht.
  { eapply triple_then; [apply rec_triple| |done]. intros u. by apply triple_ret. }
  destruct (then_ _ _ s) as [[[r' s''] tr']|] eqn:E; [|discriminate].
  simplify_eq/=. exact (Ht _ _ _ _ Hp I E).
Qed.

Lemma triple_parse_run p content file :
  triple (configured p)
    (then_ (parse_with w cfg p content) (fun ast => run_with rec p ast file))
    (fun _ _ => True).
Proof.
  eapply triple_then; [apply triple_parse_with| |done].
  intros ast. apply triple_run_with.
Qed.

Lemma triple_produce t snippetFile :
  triple (fun _ => True) (produce w rec cfg t snippetFile) (fun _ _ => True).
Proof.
  unfold produce.
  destruct (isMarkdownExtension _).
  - destruct (t_isRemoteFile t).
    + eapply triple_bind;
        [apply (triple_use_all _ [remarkGfm; remarkStringify])|].
      intros gfmProcessor.
      eapply triple_bind;
        [eapply triple_weaken;
           [apply (triple_use_all _ [remarkStringify]) | done | intros ? ? H; exact H]|].
      intros basicProcessor. unfold new_VFile.
      apply (triple_bind _ _ _ _ _
               (fun r s => configured basicProcessor s /\ exists e, r = Rejected e));
        [apply triple_ret; eauto|].
      intros [[ast file]|e].
      * intros s r s' tr _ [_ [e [=]]].
      * eapply triple_bind; [by apply triple_emit|]. intros u.
        eapply triple_weaken; [apply triple_parse_run | by intros s [H _] | done].
    + eapply triple_bind;
        [apply (triple_use_all _ [remarkGfm; remarkStringify; remarkMdx])|].
      intros snippetProcessor. apply triple_parse_run.
  - eapply triple_bind; [|intros; by apply triple_ret].
    apply (triple_place w cfg K (fun _ => True)).
Qed.

End Recursive.

End Steps.

(** ** The visitor *)

Section Visitor.

Context (w : world) (cfg : config) (file : vfile).

Lemma fetchRemoteContent_run url s :
  fetchRemoteContent w url s = Some (fetched w url, s, [FetchUrl url]).
Proof.
  unfold fetchRemoteContent, fetched, bind, emit, ret. simpl. do 3 f_equal.
  destruct (fetch w url) as [response|cause]; [|reflexivity].
  destruct (ok response); simpl; [|reflexivity].
  destruct (text response); reflexivity.
Qed.

Lemma read_file_run filePath s :
  read_file w filePath s = Some (was_read w filePath, s, [ReadFile filePath]).
Proof. reflexivity. Qed.

Lemma visitor_not_marker l s :
  is_marker cfg (object_at (nodes s) l) = false ->
  visitor w cfg file l s = Some (Ignored, s, []).
Proof. intros H. unfold visitor, bind, get_nodes. simpl. by rewrite H. Qed.

Lemma visitor_no_attributes l s :
  is_marker cfg (object_at (nodes s) l) = true ->
  (forall attributes, object_at (nodes s) l !! "attributes" <> Some (VAttrs attributes)) ->
  exists message, visitor w cfg file l s = Some (Threw message, s, []).
Proof.
  intros H Hno. unfold visitor, bind, get_nodes. simpl. rewrite H. simpl.
  destruct (object_at (nodes s) l !! "attributes") as [[]|] eqn:E;
    try (eexists; reflexivity).
  by destruct (Hno attributes).
Qed.

Lemma visitor_malformed l s attributes :
  is_marker cfg (object_at (nodes s) l) = true ->
  object_at (nodes s) l !! "attributes" = Some (VAttrs attributes) ->
  string_value (find_attribute (fileAttribute cfg) attributes) = None ->
  visitor w cfg file l s = Some (Warned, s, [WarnNode (missing_attribute cfg) l]).
Proof.
  intros H Ha Hv. unfold visitor, bind, get_nodes. simpl. by rewrite H, Ha, Hv.
Qed.

Lemma visitor_remote l s attributes fileValue :
  is_marker cfg (object_at (nodes s) l) = true ->
  object_at (nodes s) l !! "attributes" = Some (VAttrs attributes) ->
  string_value (find_attribute (fileAttribute cfg) attributes) = Some fileValue ->
  isRemoteFile fileValue = true ->
  visitor w cfg file l s =
  Some (Queued {| t_node := l; t_fileValue := fileValue; t_isRemoteFile := true;
                  t_lang := string_value (find_attribute "lang" attributes);
                  t_meta := string_value (find_attribute "meta" attributes);
                  t_filePath := fileValue;
                  t_content := fetched w fileValue |},
        s, [FetchUrl fileValue]).
Proof.
  intros H Ha Hv Hr. unfold visitor. unfold bind at 1. unfold get_nodes.
  cbv beta iota zeta. rewrite H, Ha, Hv, Hr. cbn [negb].
  by rewrite (bind_run _ _ _ _ _ _ (fetchRemoteContent_run _ _)).
Qed.

Lemma visitor_local l s attributes fileValue :
  is_marker cfg (object_at (nodes s) l) = true ->
  object_at (nodes s) l !! "attributes" = Some (VAttrs attributes) ->
  string_value (find_attribute (fileAttribute cfg) attributes) = Some fileValue ->
  isRemoteFile fileValue = false ->
  let filePath := path_join w (snippetsDir cfg) fileValue in
  visitor w cfg file l s =
  Some (Queued {| t_node := l; t_fileValue := fileValue; t_isRemoteFile := false;
                  t_lang := string_value (find_attribute "lang" attributes);
                  t_meta := string_value (find_attribute "meta" attributes);
                  t_filePath := filePath;
                  t_content := was_read w filePath |},
        s, (if vf_compiler file then [AddDependency filePath] else []) ++ [ReadFile filePath]).
Proof.
  intros H Ha Hv Hr filePath. unfold visitor. unfold bind at 1. unfold get_nodes.
  cbv beta iota zeta. rewrite H, Ha, Hv, Hr. cbn [negb].
  fold filePath. destruct (vf_compiler file); reflexivity.
Qed.

(** The visitor reads the store and leaves it as it is; it queues the nodes
    that [queues] describes, and only those. *)
Lemma visitor_run l s :
  exists v tr,
    visitor w cfg file l s = Some (v, s, tr)
    /\ Forall (expected w cfg) tr
    /\ (forall t, v = Queued t ->
          t_node t = l /\ queues cfg (object_at (nodes s) l) = true /\ resolved w cfg t).
Proof.
  destruct (is_marker cfg (object_at (nodes s) l)) eqn:Hm.
  2: { eexists _, _. split; [by apply visitor_not_marker|]. split; [constructor|done]. }
  destruct (object_at (nodes s) l !! "attributes") as [v|] eqn:Ha.
  2: { destruct (visitor_no_attributes l s Hm) as [m Hrun]; [by rewrite Ha|].
       eexists _, _. split; [exact Hrun|]. split; [constructor|done]. }
  assert ((exists attributes, v = VAttrs attributes)
          \/ (forall attributes, v <> VAttrs attributes)) as [[attributes ->]|Hno]
    by (destruct v; eauto; right; intros; discriminate).
  2: { destruct (visitor_no_attributes l s Hm) as [m Hrun].
       { rewrite Ha. intros attributes [= ->]. by eapply Hno. }
       eexists _, _. split; [exact Hrun|]. split; [constructor|done]. }
  destruct (string_value (find_attribute (fileAttribute cfg) attributes))
    as [fileValue|] eqn:Hv.
  2: { eexists _, _. split; [by eapply visitor_malformed|].
       split; [by repeat constructor|done]. }
  assert (queues cfg (object_at (nodes s) l) = true) as Hq.
  { unfold queues. by rewrite Hm, Ha, Hv. }
  destruct (isRemoteFile fileValue) eqn:Hr.
  - eexists _, _. split; [by eapply visitor_remote|].
    split; [by repeat constructor|]. by intros t [= <-].
  - eexists _, _. split; [by eapply visitor_local|]. split.
    + apply Forall_app. split; [|repeat constructor; by eexists].
      destruct (vf_compiler file); repeat constructor. by eexists.
    + by intros t [= <-].
Qed.

Lemma visit_all_run ls s :
  exists queue thrown tr,
    visit_all w cfg file ls s = Some ((queue, thrown), s, tr)
    /\ Forall (expected w cfg) tr
    /\ Forall (fun t => queues cfg (object_at (nodes s) (t_node t)) = true
                        /\ resolved w cfg t) queue.
Proof.
  induction ls as [|l ls (queue & thrown & tr & Hrun & Htr & Hq)].
  - exists [], None, []. by repeat split.
  - destruct (visitor_run l s) as (v & tr1 & Hv & Htr1 & Hqueued).
    cbn [visit_all]. rewrite (bind_run _ _ _ _ _ _ Hv).
    destruct v as [| |t|e].
    + rewrite Hrun. eexists _, _, _. split; [reflexivity|]. split; [by apply Forall_app|done].
    + rewrite Hrun. eexists _, _, _. split; [reflexivity|]. split; [by apply Forall_app|done].
    + rewrite (bind_run _ _ _ _ _ _ Hrun). simpl.
      eexists _, _, _. split; [reflexivity|]. split.
      * rewrite app_nil_r. by apply Forall_app.
      * constructor; [|done]. destruct (Hqueued t eq_refl) as (-> & ? & ?). done.
    + simpl. eexists _, _, _. split; [reflexivity|].
      split; [by rewrite app_nil_r|constructor].
Qed.

End Visitor.

(** ** The promise of one marker *)

Lemma splice_run t result s children :
  object_at (nodes s) result !! "children" = Some (VNodes children) ->
  splice t result s =
  Some (Fulfilled tt,
        write_node s (t_node t)
          (assign (object_at (nodes s) (t_node t)) (replacement (nodes s) children)),
        []).
Proof.
  intros Hc. unfold splice, bind, get_nodes. simpl. rewrite Hc.
  destruct children as [|child [|]]; reflexivity.
Qed.

Lemma splice_no_children t result s :
  (forall children, object_at (nodes s) result !! "children" <> Some (VNodes children)) ->
  exists message, splice t result s = Some (Rejected message, s, []).
Proof.
  intros Hno. unfold splice, bind, get_nodes. simpl.
  destruct (object_at (nodes s) result !! "children") as [[]|];
    try (eexists; reflexivity).
  by destruct (Hno children).
Qed.

Lemma report_run w cfg file t errorMessage s :
  report w cfg file t errorMessage s =
  Some (Fulfilled tt, s,
        [error_report w cfg file t (object_at (nodes s) (t_node t)) errorMessage]).
Proof. reflexivity. Qed.

(** A marker whose content did not resolve: its promise prints the error
    and is fulfilled, and the store is as it was. *)
Lemma expansion_unresolved w rec cfg file t e s :
  t_content t = Rejected e ->
  expansion w rec cfg file t s =
  Some (Fulfilled tt, s,
        [error_report w cfg file t (object_at (nodes s) (t_node t)) e]).
Proof.
  intros He. unfold expansion. rewrite He. reflexivity.
Qed.

(** The promise of a marker is fulfilled whatever happens inside. *)
Lemma expansion_fulfilled w rec cfg file t s r s' tr :
  expansion w rec cfg file t s = Some (r, s', tr) -> r = Fulfilled tt.
Proof.
  unfold expansion, catch_. intros H.
  apply bind_Some in H as ([[]|e] & s1 & tr1 & tr2 & _ & H & _).
  - by injection H as <- _ _.
  - rewrite report_run in H. by injection H as <- _ _.
Qed.

Lemma settle_all_fulfilled w rec cfg file queue s rs s' tr :
  settle_all w rec cfg file queue s = Some (rs, s', tr) ->
  promise_all rs = Fulfilled tt.
Proof.
  revert s rs s' tr. induction queue as [|t queue IH]; intros s rs s' tr; simpl.
  - by intros [= <- _ _].
  - intros H. apply bind_Some in H as (r & s1 & tr1 & tr2 & Hr & H & _).
    apply bind_Some in H as (rs' & s2 & tr3 & tr4 & Hrs & H & _).
    injection H as <- _ _. apply expansion_fulfilled in Hr as ->. simpl. eauto.
Qed.

Section Promise.

Context (w : world) (cfg : config) (K : loc -> Prop).

Abbreviation triple := (triple w cfg K).

Context (rec : options -> vfile -> loc -> promise unit).
Hypothesis rec_triple :
  forall file root, triple (fun _ => True) (rec (nested_options cfg) file root)
                           (fun _ _ => True).

Lemma triple_splice t result :
  ~ K (t_node t) -> triple (fun _ => True) (splice t result) (fun _ _ => True).
Proof.
  intros HK s r s' tr _ _ Hrun.
  destruct (object_at (nodes s) result !! "children") as [v|] eqn:Hc.
  - assert ((exists children, v = VNodes children)
            \/ (forall children, v <> VNodes children)) as [[children ->]|Hno]
      by (destruct v; eauto; right; intros; discriminate).
    + rewrite (splice_run _ _ _ _ Hc) in Hrun. injection Hrun as <- <- <-.
      split; [|split; [constructor|done]].
      intros l Hl. simpl. rewrite lookup_insert_ne; [done|]. congruence.
    + destruct (splice_no_children t result s) as [m Hm].
      { rewrite Hc. intros children [= ->]. by eapply Hno. }
      rewrite Hm in Hrun. injection Hrun as <- <- <-.
      split; [apply agree_refl|]. split; [constructor|done].
  - destruct (splice_no_children t result s) as [m Hm]; [by rewrite Hc|].
    rewrite Hm in Hrun. injection Hrun as <- <- <-.
    split; [apply agree_refl|]. split; [constructor|done].
Qed.

Lemma triple_expansion file t :
  ~ K (t_node t) ->
  triple (fun _ => True) (expansion w rec cfg file t) (fun _ _ => True).
Proof.
  intros HK. unfold expansion.
  apply triple_catch with (Q := fun _ _ => True); [| |done].
  - apply triple_then with (Q := fun _ _ => True);
      [|intros ast; by apply triple_splice|done].
    apply triple_then with (Q := fun _ _ => True); [by apply triple_ret| |done].
    intros snippetFile. by apply triple_produce.
  - intros e s r s' tr _ _ Hrun. rewrite report_run in Hrun. injection Hrun as <- <- <-.
    split; [apply agree_refl|]. split; [by repeat constructor|done].
Qed.

Lemma triple_settle_all file queue :
  Forall (fun t => ~ K (t_node t)) queue ->
  triple (fun _ => True) (settle_all w rec cfg file queue) (fun _ _ => True).
Proof.
  induction 1 as [|t queue Ht _ IH]; simpl; [by apply triple_ret|].
  apply triple_bind with (Q := fun _ _ => True); [by apply triple_expansion|]. intros r.
  apply triple_bind with (Q := fun _ _ => True); [apply IH|]. intros rs.
  by apply triple_ret.
Qed.

Lemma triple_transformer depth file root :
  triple (fun _ => True) (transformer w rec depth cfg file root) (fun _ _ => True).
Proof.
  intros s r s' tr Hp _ Hrun. unfold transformer in Hrun.
  destruct (visit depth (nodes s) root jsx_types) as [found|]; [|discriminate].
  destruct (visit_all_run w cfg file found s) as (queue & thrown & tr0 & Hwalk & Htr0 & Hq).
  rewrite (bind_run _ _ _ _ _ _ Hwalk) in Hrun. simpl in Hrun.
  assert (Forall (fun t => ~ K (t_node t)) queue) as HK.
  { eapply Forall_impl; [exact Hq|]. intros t [Ht _] Hk. simpl in Ht.
    destruct (Hp _ Hk) as (node & Hnode & Hnq).
    unfold object_at in Ht. rewrite Hnode in Ht. simpl in Ht. congruence. }
  destruct (bind _ _ s) as [[[r' s''] tr']|] eqn:E; [|discriminate].
  injection Hrun as <- <- <-.
  assert (triple (fun _ => True)
            (let* results := settle_all w rec cfg file queue in
             ret (match thrown with
                  | Some e => Rejected e
                  | None => promise_all results
                  end)) (fun _ _ => True)) as Ht.
  { apply triple_bind with (Q := fun _ _ => True); [by apply triple_settle_all|].
    intros rs. by apply triple_ret. }
  destruct (Ht _ _ _ _ Hp I E) as (Ha & He & _).
  split; [exact Ha|]. split; [by apply Forall_app|done].
Qed.

End Promise.

(** Every run of the plugin, at any depth of inclusion, leaves the nodes it
    does not queue as they are, and reads, registers and warns as its own
    configuration says. *)
Lemma mdxSnippet_triple w K fuel :
  forall o file root,
    triple w (resolve_options w o) K (fun _ => True)
      (mdxSnippet w fuel o file root) (fun _ _ => True).
Proof.
  induction fuel as [|n IH]; intros o file root.
  - intros s r s' tr _ _ [=].
  - simpl. apply triple_transformer. intros file' root'.
    specialize (IH (nested_options (resolve_options w o)) file' root').
    by rewrite resolve_nested_options in IH.
Qed.

(** ** Nodes the transform leaves alone *)


(** Whatever the depth of inclusion, a node of the store that the visitor
    does not queue is after the run what it was before. *)
Lemma unqueued_node_kept w fuel o file root s r s' tr l node :
  mdxSnippet w fuel o file root s = Some (r, s', tr) ->
  nodes s !! l = Some node ->
  queues (resolve_options w o) node = false ->
  nodes s' !! l = Some node.
Proof.
  intros Hrun Hl Hq.
  pose (K := fun l => exists node,
                 nodes s !! l = Some node /\ queues (resolve_options w o) node = false).
  assert (protected (resolve_options w o) K s) as Hp by (intros l' Hl'; exact Hl').
  destruct (mdxSnippet_triple w K fuel o file root s r s' tr Hp I Hrun) as (Ha & _ & _).
  rewrite (Ha l); [done|]. by exists node.
Qed.




(** ** Malformed markers *)

Lemma string_value_absent_or_not_string name attributes :
  (find_attribute name attributes = None
   \/ exists a, find_attribute name attributes = Some a
               /\ forall v, attr_val a <> AttrString v) ->
  string_value (find_attribute name attributes) = None.
Proof.
  intros [->|(a & -> & Ha)]; [reflexivity|].
  destruct a as [n [v| |c]]; simpl in *; [by destruct (Ha v)|done|done].
Qed.

Lemma marker_in_store cfg h l :
  is_marker cfg (object_at h l) = true -> h !! l = Some (object_at h l).
Proof.
  unfold object_at. destruct (h !! l); [done|].
  unfold is_marker, has_type. simpl. by rewrite lookup_empty.
Qed.

(** C7.  A marker whose file attribute is absent or not a string: the
    visitor warns, naming the configured element, the configured attribute
    and the node, and queues nothing; the walk goes on with the nodes that
    follow, so the markers among them are handled as if the malformed one
    were not there; and after the whole transform the node is the object it
    was. *)
Theorem malformed_marker_skipped w o file l s attributes :
  let cfg := resolve_options w o in
  let warning :=
    WarnNode (elementName cfg +:+ " tag missing required " +:+ quote
                +:+ fileAttribute cfg +:+ quote +:+ " attribute:") l in
  is_marker cfg (object_at (nodes s) l) = true ->
  object_at (nodes s) l !! "attributes" = Some (VAttrs attributes) ->
  (find_attribute (fileAttribute cfg) attributes = None
   \/ exists a, find_attribute (fileAttribute cfg) attributes = Some a
               /\ forall v, attr_val a <> AttrString v) ->
  visitor w cfg file l s = Some (Warned, s, [warning])
  /\ (forall rest,
        visit_all w cfg file (l :: rest) s =
        match visit_all w cfg file rest s with
        | Some (walked, s1, tr) => Some (walked, s1, warning :: tr)
        | None => None
        end)
  /\ (forall fuel file' root r s' tr,
        mdxSnippet w fuel o file' root s = Some (r, s', tr) ->
        nodes s' !! l = nodes s !! l).
Proof.
  intros cfg warning Hm Ha Hfile.
  apply string_value_absent_or_not_string in Hfile.
  pose proof (visitor_malformed w cfg file l s attributes Hm Ha Hfile) as Hv.
  split; [exact Hv|]. split.
  - intros rest. cbn [visit_all]. rewrite (bind_run _ _ _ _ _ _ Hv).
    destruct (visit_all w cfg file rest s) as [[[walked s1] tr]|]; reflexivity.
  - intros fuel file' root r s' tr Hrun.
    rewrite (marker_in_store _ _ _ Hm).
    eapply unqueued_node_kept; [exact Hrun|exact (marker_in_store _ _ _ Hm)|].
    unfold queues. fold cfg. by rewrite Hm, Ha, Hfile.
Qed.

(** In the sample world: [<Snippet />] with no attribute is warned about
    and kept while the marker after it is expanded. *)
Lemma malformed_marker_skipped_witness :
  let s := Sample.store_of
             (Sample.root [Sample.element "Snippet" [] 2 []; Sample.snippet "two.mdx" 4]) in
  visitor Sample.sample (resolve_options Sample.sample Sample.no_options)
          Sample.document 1%nat s
    = Some (Warned, s,
            [WarnNode ("Snippet tag missing required " +:+ quote +:+ "file" +:+ quote
                         +:+ " attribute:") 1%nat])
  /\ match mdxSnippet Sample.sample 6 Sample.no_options Sample.document 0%nat s with
     | Some (_, s', _) => nodes s' !! 1%nat = nodes s !! 1%nat
     | None => False
     end.
Proof.
  intros s.
  destruct (malformed_marker_skipped Sample.sample Sample.no_options Sample.document
              1%nat s []) as (Hv & _ & Hkept);
    [by_running | by_running | by left |].
  split; [exact Hv|].
  destruct (mdxSnippet _ _ _ _ _ s) as [[[r s'] tr]|] eqn:Hrun.
  - exact (Hkept _ _ _ _ _ _ Hrun).
  - vm_compute in Hrun. discriminate.
Defined.

(** ** One configuration at every depth *)




(** ** Markers whose content does not resolve *)

Lemma settle_all_cons w rec cfg file t queue s r s1 tr1 :
  expansion w rec cfg file t s = Some (r, s1, tr1) ->
  settle_all w rec cfg file (t :: queue) s =
  match settle_all w rec cfg file queue s1 with
  | Some (rs, s2, tr2) => Some (r :: rs, s2, tr1 ++ tr2)
  | None => None
  end.
Proof.
  intros Ht. cbn [settle_all]. rewrite (bind_run _ _ _ _ _ _ Ht).
  destruct (settle_all w rec cfg file queue s1) as [[[rs s2] tr2]|] eqn:E.
  - rewrite (bind_run _ _ _ _ _ _ E). simpl. by rewrite app_nil_r.
  - unfold bind. by rewrite E.
Qed.

(** Taking a marker whose content did not resolve out of the queue changes
    nothing but the trace, which loses the report of that marker. *)
Lemma settle_all_unresolved w rec cfg file t e post :
  t_content t = Rejected e ->
  forall pre s rs s' tr,
    settle_all w rec cfg file (pre ++ post) s = Some (rs, s', tr) ->
    exists rs' tr1 tr2 s1,
      tr = tr1 ++ tr2
      /\ settle_all w rec cfg file (pre ++ t :: post) s =
         Some (rs', s',
               tr1 ++ [error_report w cfg file t (object_at (nodes s1) (t_node t)) e] ++ tr2).
Proof.
  intros He. induction pre as [|p pre IH]; intros s rs s' tr Hrun.
  - exists (Fulfilled tt :: rs), [], tr, s. split; [reflexivity|].
    cbn [app] in *.
    rewrite (settle_all_cons _ _ _ _ _ _ _ _ _ _ (expansion_unresolved _ _ _ _ _ _ _ He)).
    by rewrite Hrun.
  - cbn [app settle_all] in Hrun.
    apply bind_Some in Hrun as (r & sa & tra & trb & Hp & Hrest & ->).
    apply bind_Some in Hrest as (rs0 & sb & trc & trd & Hrest & Hret & ->).
    injection Hret as <- <- <-.
    destruct (IH _ _ _ _ Hrest) as (rs' & tr1 & tr2 & s1 & -> & Hskip).
    exists (r :: rs'), (tra ++ tr1), tr2, s1. split.
    + by rewrite app_nil_r, app_assoc.
    + cbn [app].
      rewrite (settle_all_cons _ _ _ _ _ _ _ _ _ _ Hp), Hskip.
      by rewrite <- app_assoc.
Qed.

Lemma mdxSnippet_unfold w n o file root s found queue thrown tr0 :
  visit n (nodes s) root jsx_types = Some found ->
  visit_all w (resolve_options w o) file found s = Some ((queue, thrown), s, tr0) ->
  mdxSnippet w (S n) o file root s =
  match settle_all w (mdxSnippet w n) (resolve_options w o) file queue s with
  | Some (rs, s', tr) =>
      Some (match thrown with Some e => Rejected e | None => promise_all rs end,
            s', tr0 ++ tr)
  | None => None
  end.
Proof.
  intros Hv Hw. cbn [mdxSnippet]. unfold transformer. rewrite Hv.
  rewrite (bind_run _ _ _ _ _ _ Hw). simpl.
  destruct (settle_all _ _ _ _ queue s) as [[[rs s'] tr]|] eqn:E.
  - rewrite (bind_run _ _ _ _ _ _ E). simpl. by rewrite app_nil_r.
  - unfold bind. by rewrite E.
Qed.

(** C1.  A marker queued by the walk whose content does not resolve: the
    read of its file, or the fetch of its URL, was rejected.  Its promise,
    in whatever state it settles, prints one error that starts with
    'Error reading snippet file:' and carries the path of the document, the
    line and column of the marker, the path or URL and the cause; it writes
    nothing, so the marker stays as it is, and it is fulfilled.  The run of
    the whole transform ends as the run of the other markers alone would,
    in the same state, with that error added to the trace, and its promise
    is fulfilled. *)
Theorem unresolved_marker_isolated w n o file root s found pre t post tr0 e :
  let cfg := resolve_options w o in
  let diagnostic (node : obj) :=
    ErrorLog
      [ "Error reading snippet file:";
        nl +:+ nl +:+ "Snippet at: " +:+ show_string (vf_path file) +:+ ":"
           +:+ show_number (start_line node) +:+ ":" +:+ show_number (start_column node);
        nl +:+ (if t_isRemoteFile t then "Remote URL" else "File path") +:+ ": "
           +:+ (if t_isRemoteFile t then t_fileValue t
                else path_join w (snippetsDir cfg) (t_fileValue t));
        nl +:+ "Error: " +:+ e ] in
  visit n (nodes s) root jsx_types = Some found ->
  visit_all w cfg file found s = Some ((pre ++ t :: post, None), s, tr0) ->
  t_content t = Rejected e ->
  (if t_isRemoteFile t
   then fetchRemoteContent w (t_fileValue t) s
        = Some (Rejected e, s, [FetchUrl (t_fileValue t)])
   else read_file w (path_join w (snippetsDir cfg) (t_fileValue t)) s
        = Some (Rejected e, s, [ReadFile (path_join w (snippetsDir cfg) (t_fileValue t))]))
  /\ (forall rec s1,
     expansion w rec cfg file t s1 =
     Some (Fulfilled tt, s1, [diagnostic (object_at (nodes s1) (t_node t))]))
  /\ (forall rs s' tr,
        settle_all w (mdxSnippet w n) cfg file (pre ++ post) s = Some (rs, s', tr) ->
        exists tr1 tr2 s1,
          tr = tr1 ++ tr2
          /\ mdxSnippet w (S n) o file root s =
             Some (Fulfilled tt, s',
                   tr0 ++ tr1 ++ [diagnostic (object_at (nodes s1) (t_node t))] ++ tr2))
  /\ (forall r s' tr,
        mdxSnippet w (S n) o file root s = Some (r, s', tr) -> r = Fulfilled tt).
Proof.
  intros cfg diagnostic Hvisit Hwalk He. split; [|split; [|split]].
  - destruct (visit_all_run w cfg file found s) as (queue & thrown & tr & Hrun & _ & Hq).
    rewrite Hwalk in Hrun. injection Hrun as <- _ _.
    apply Forall_app in Hq as [_ Hq]. apply Forall_cons in Hq as [[_ Hres] _].
    unfold resolved in Hres. rewrite He in Hres.
    destruct (t_isRemoteFile t).
    + rewrite fetchRemoteContent_run. by rewrite <- Hres.
    + rewrite read_file_run. by rewrite <- Hres.
  - intros rec s1. by apply expansion_unresolved.
  - intros rs s' tr Hothers.
    destruct (settle_all_unresolved _ _ _ _ _ _ _ He _ _ _ _ _ Hothers)
      as (rs' & tr1 & tr2 & s1 & -> & Hall).
    exists tr1, tr2, s1. split; [reflexivity|].
    rewrite (mdxSnippet_unfold _ _ _ _ _ _ _ _ _ _ Hvisit Hwalk). fold cfg.
    rewrite Hall. by rewrite (settle_all_fulfilled _ _ _ _ _ _ _ _ _ Hall).
  - intros r s' tr Hrun.
    rewrite (mdxSnippet_unfold _ _ _ _ _ _ _ _ _ _ Hvisit Hwalk) in Hrun.
    destruct (settle_all _ _ _ _ _ s) as [[[rs s''] tr']|] eqn:Hall; [|discriminate].
    injection Hrun as <- _ _. by apply settle_all_fulfilled in Hall.
Qed.

(** In the sample world: a missing file between two files that exist. *)
Lemma unresolved_marker_isolated_witness :
  let s := Sample.store_of
             (Sample.root [Sample.snippet "two.mdx" 1; Sample.snippet "missing.mdx" 2;
                           Sample.snippet "script.js" 3]) in
  let t := Sample.local_task 2%nat "missing.mdx" in
  let cause := "ENOENT: no such file or directory, open '/docs/_snippets/missing.mdx'" in
  t_content t = Rejected cause
  /\ expansion Sample.sample (mdxSnippet Sample.sample 5)
       (resolve_options Sample.sample Sample.no_options) Sample.document t s
     = Some (Fulfilled tt, s,
             [ErrorLog [ "Error reading snippet file:";
                         nl +:+ nl +:+ "Snippet at: /docs/page.mdx:2:1";
                         nl +:+ "File path: /docs/_snippets/missing.mdx";
                         nl +:+ "Error: " +:+ cause ]])
  /\ match mdxSnippet Sample.sample 6 Sample.no_options Sample.document 0%nat s with
     | Some (r, _, _) => r = Fulfilled tt
     | None => False
     end.
Proof.
  intros s t cause.
  destruct (unresolved_marker_isolated Sample.sample 5 Sample.no_options Sample.document
              0%nat s [1%nat; 2%nat; 3%nat]
              [Sample.local_task 1%nat "two.mdx"] t [Sample.local_task 3%nat "script.js"]
              [ReadFile "/docs/_snippets/two.mdx"; ReadFile "/docs/_snippets/missing.mdx";
               ReadFile "/docs/_snippets/script.js"] cause)
    as (_ & Hown & _ & Hfulfilled);
    [by_running | by_running | by_running |].
  split; [by_running|]. split.
  - rewrite Hown. vm_compute. reflexivity.
  - destruct (mdxSnippet _ _ _ _ _ s) as [[[r s'] tr]|] eqn:Hrun.
    + exact (Hfulfilled _ _ _ eq_refl).
    + vm_compute in Hrun. discriminate.
Defined.

(** ** Remote references *)

Lemma startsWith_prefix s p : Js.startsWith s p = true <-> exists rest, s = p +:+ rest.
Proof.
  revert s. induction p as [|a p IH]; intros s; simpl.
  - split; [intros _; by exists s | done].
  - destruct s as [|b s].
    + split; [done | by intros [rest [=]]].
    + rewrite andb_true_iff, IH. split.
      * intros [Hab [rest ->]]. apply Ascii.eqb_eq in Hab as ->. by exists rest.
      * intros [rest [= -> ->]]. split; [apply Ascii.eqb_refl | by exists rest].
Qed.

(** C6.  A reference is remote exactly when it begins with [http://] or
    [https://].  Resolving a remote reference starts one request for that
    URL and nothing else; it fails when the request is rejected, when the
    status is outside 200-299, or when reading the body is rejected, each
    time with one error that names the URL and the cause (for a status, the
    status and its text); otherwise it gives the body with the URL as its
    path.  The visitor queues a remote marker with that outcome and the URL
    itself as the source. *)
Theorem remote_resolution w url s :
  (forall reference,
     isRemoteFile reference = true <->
     (exists rest, reference = "http://" +:+ rest)
     \/ (exists rest, reference = "https://" +:+ rest))
  /\ (exists outcome,
        fetchRemoteContent w url s = Some (outcome, s, [FetchUrl url])
        /\ let failure cause :=
             Rejected ("Failed to fetch remote content from " +:+ url +:+ ": " +:+ cause) in
           match fetch w url with
           | Rejected cause => outcome = failure cause
           | Fulfilled response =>
               if decide (200 <= status response <= 299) then
                 match text response with
                 | Fulfilled content =>
                     outcome = Fulfilled {| sf_value := content; sf_path := url |}
                 | Rejected cause => outcome = failure cause
                 end
               else
                 outcome = failure ("HTTP " +:+ pretty (status response) +:+ ": "
                                      +:+ statusText response)
           end)
  /\ (forall cfg file l attributes,
        is_marker cfg (object_at (nodes s) l) = true ->
        object_at (nodes s) l !! "attributes" = Some (VAttrs attributes) ->
        string_value (find_attribute (fileAttribute cfg) attributes) = Some url ->
        isRemoteFile url = true ->
        exists t,
          visitor w cfg file l s = Some (Queued t, s, [FetchUrl url])
          /\ t_node t = l /\ t_isRemoteFile t = true /\ t_filePath t = url
          /\ fetchRemoteContent w url s = Some (t_content t, s, [FetchUrl url])).
Proof.
  split; [|split].
  - intros reference. unfold isRemoteFile.
    rewrite orb_true_iff, !startsWith_prefix. tauto.
  - exists (fetched w url). split; [apply fetchRemoteContent_run|].
    unfold fetched, ok. cbv zeta.
    destruct (fetch w url) as [response|cause]; [|reflexivity].
    destruct (decide (200 <= status response <= 299)) as [[H1 H2]|Hno].
    + apply Z.leb_le in H1, H2. rewrite H1, H2. simpl.
      destruct (text response); reflexivity.
    + destruct (200 <=? status response) eqn:H1; [|reflexivity].
      destruct (status response <=? 299) eqn:H2; [|reflexivity].
      apply Z.leb_le in H1, H2. by destruct Hno.
  - intros cfg file l attributes Hm Ha Hv Hr.
    eexists. split; [by eapply visitor_remote|].
    simpl. repeat split. apply fetchRemoteContent_run.
Qed.

(** In the sample world: a URL that answers 404. *)
Lemma remote_resolution_witness :
  let s := Sample.store_of (Sample.root [Sample.snippet "https://example.com/gone.md" 1]) in
  let url := "https://example.com/gone.md" in
  exists t,
    visitor Sample.sample (resolve_options Sample.sample Sample.no_options)
            Sample.document 1%nat s
      = Some (Queued t, s, [FetchUrl url])
    /\ t_filePath t = url
    /\ t_content t = Rejected ("Failed to fetch remote content from " +:+ url
                                 +:+ ": HTTP 404: Not Found").
Proof.
  intros s url.
  destruct (remote_resolution Sample.sample url s) as (_ & _ & Hvisitor).
  destruct (Hvisitor (resolve_options Sample.sample Sample.no_options) Sample.document
              1%nat [Sample.attr "file" url]) as (t & Hv & _ & _ & Hpath & Hcontent);
    [by_running | by_running | reflexivity | reflexivity |].
  exists t. split; [exact Hv|]. split; [exact Hpath|].
  rewrite fetchRemoteContent_run in Hcontent. injection Hcontent as <-.
  vm_compute. reflexivity.
Defined.

(** ** Content that is not markdown *)


Lemma fresh_after_insert (h : heap) l o : fresh (dom (<[l := o]> h)) <> l.
Proof.
  intros Heq. pose proof (fresh_lookup (<[l := o]> h)) as Hf.
  rewrite Heq in Hf. by rewrite lookup_insert_eq in Hf.
Qed.



(** For an empty text, [snippetFile.value || snippetFile] is the file
    object. *)
Example empty_text_value_is_the_file :
  let t := Sample.local_task 1%nat "empty.txt" in
  codeBlockNode t "txt" {| sf_value := EmptyString; sf_path := "/docs/_snippets/empty.txt" |}
  = Tree {[ "type" := VStr "code"; "lang" := VStr "txt"; "meta" := VNull;
            "value" := VFile EmptyString "/docs/_snippets/empty.txt" ]} None.
Proof. reflexivity. Qed.


(** ** Replacing the marker *)

Lemma assign_lookup (target source : obj) field :
  assign target source !! field =
  match source !! field with
  | Some v => Some v
  | None => target !! field
  end.
Proof.
  unfold assign. rewrite lookup_union.
  destruct (source !! field), (target !! field); reflexivity.
Qed.

Lemma expansion_resolved w rec cfg file t snippetFile s result s1 tr children :
  t_content t = Fulfilled snippetFile ->
  produce w rec cfg t snippetFile s = Some (Fulfilled result, s1, tr) ->
  object_at (nodes s1) result !! "children" = Some (VNodes children) ->
  expansion w rec cfg file t s =
  Some (Fulfilled tt,
        write_node s1 (t_node t)
          (assign (object_at (nodes s1) (t_node t)) (replacement (nodes s1) children)),
        tr).
Proof.
  intros Hc Hp Hch. unfold expansion. rewrite Hc.
  assert (then_ (ret (Fulfilled snippetFile)) (produce w rec cfg t) s
          = Some (Fulfilled result, s1, tr)) as H1.
  { unfold then_. by rewrite bind_ret_l. }
  assert (then_ (then_ (ret (Fulfilled snippetFile)) (produce w rec cfg t)) (splice t) s
          = Some (Fulfilled tt,
                  write_node s1 (t_node t)
                    (assign (object_at (nodes s1) (t_node t))
                            (replacement (nodes s1) children)), tr)) as H2.
  { rewrite (then_run _ _ _ _ _ _ H1), (splice_run _ _ _ _ Hch). by rewrite app_nil_r. }
  by rewrite (catch_run _ _ _ _ _ _ H2).
Qed.

(** C2, as the code has it.  A marker whose content resolved and was turned
    into a result with a list of children.  The expansion writes on the
    marker's own object and nowhere else, so the node keeps its place in
    its parent's list.  With exactly one child, every field the child has
    is written on the marker and every field the child lacks keeps the
    value the marker had.  Otherwise (no child, or several) the marker
    becomes a flow element with name null, no attribute and the children of
    the result in their order, its other fields kept. *)
Theorem marker_replaced_in_place w rec cfg file t snippetFile s result s1 tr children :
  t_content t = Fulfilled snippetFile ->
  produce w rec cfg t snippetFile s = Some (Fulfilled result, s1, tr) ->
  object_at (nodes s1) result !! "children" = Some (VNodes children) ->
  let node := object_at (nodes s1) (t_node t) in
  exists node',
    expansion w rec cfg file t s =
    Some (Fulfilled tt,
          {| nodes := <[t_node t := node']> (nodes s1);
             shared_attachers := shared_attachers s1 |}, tr)
    /\ match children with
       | [child] =>
           forall field,
             node' !! field =
             match object_at (nodes s1) child !! field with
             | Some v => Some v
             | None => node !! field
             end
       | _ =>
           node' !! "type" = Some (VStr "mdxJsxFlowElement")
           /\ node' !! "name" = Some VNull
           /\ node' !! "attributes" = Some (VAttrs [])
           /\ node' !! "children" = Some (VNodes children)
           /\ forall field,
                field ∉ ["type"; "name"; "attributes"; "children"] ->
                node' !! field = node !! field
       end.
Proof.
  intros Hc Hp Hch node.
  eexists. split; [exact (expansion_resolved _ _ _ file _ _ _ _ _ _ _ Hc Hp Hch)|].
  fold node.
  assert (forall cs : list loc,
            assign node (fragment cs) !! "type" = Some (VStr "mdxJsxFlowElement")
            /\ assign node (fragment cs) !! "name" = Some VNull
            /\ assign node (fragment cs) !! "attributes" = Some (VAttrs [])
            /\ assign node (fragment cs) !! "children" = Some (VNodes cs)
            /\ forall field,
                 field ∉ ["type"; "name"; "attributes"; "children"] ->
                 assign node (fragment cs) !! field = node !! field) as Hfragment.
  { intros cs. rewrite !assign_lookup. repeat split.
    intros field Hfield. rewrite assign_lookup. unfold fragment.
    rewrite !lookup_insert_ne, lookup_singleton_ne; [done|..];
      intros <-; apply Hfield; set_solver. }
  destruct children as [|child [|child' children]]; simpl.
  - apply Hfragment.
  - intros field. apply assign_lookup.
  - apply Hfragment.
Qed.

(** The claim C2 as stated fails when the one replacement node lacks a
    field the marker has: a marker replaced by a [code] node keeps its own
    [attributes] and [children]. *)
Lemma code_replacement_keeps_marker_fields :
  let s := Sample.store_of (Sample.root [Sample.snippet "script.js" 1]) in
  exists s' tr,
    mdxSnippet Sample.sample 6 Sample.no_options Sample.document 0%nat s
      = Some (Fulfilled tt, s', tr)
    /\ object_at (nodes s') 2%nat !! "children" = Some (VNodes [3%nat])
    /\ object_at (nodes s') 3%nat !! "type" = Some (VStr "code")
    /\ ~ (forall field,
            field ∈ ["type"; "attributes"; "children"; "value"] ->
            object_at (nodes s') 1%nat !! field = object_at (nodes s') 3%nat !! field).
Proof.
  eexists _, _. split; [by_running|].
  split; [by_running|]. split; [by_running|].
  intros H. specialize (H "attributes" ltac:(set_solver)). vm_compute in H. discriminate.
Qed.

(** In the sample world: a file of one paragraph; the marker becomes the
    paragraph, keeps its name, and its parent is untouched. *)
Lemma marker_replaced_in_place_witness :
  let s := Sample.store_of (Sample.root [Sample.paragraph "intro"; Sample.snippet "child.mdx" 3]) in
  let t := Sample.local_task 3%nat "child.mdx" in
  exists s',
    expansion Sample.sample (mdxSnippet Sample.sample 5)
      (resolve_options Sample.sample Sample.no_options) Sample.document t s
    = Some (Fulfilled tt, s', [])
    /\ nodes s' !! 0%nat = nodes s !! 0%nat
    /\ object_at (nodes s') 3%nat !! "type" = Some (VStr "paragraph")
    /\ object_at (nodes s') 3%nat !! "name" = Some (VStr "Snippet").
Proof.
  intros s t.
  edestruct (marker_replaced_in_place Sample.sample (mdxSnippet Sample.sample 5)
               (resolve_options Sample.sample Sample.no_options) Sample.document t
               {| sf_value := "hello"; sf_path := "/docs/_snippets/child.mdx" |} s)
    as (node' & Hrun & Hfields);
    [by_running | by_running | by_running |].
  eexists. split; [exact Hrun|]. cbn [nodes]. split; [|split].
  - by rewrite lookup_insert_ne.
  - unfold object_at. rewrite lookup_insert_eq. simpl.
    rewrite (Hfields "type"). vm_compute. reflexivity.
  - unfold object_at. rewrite lookup_insert_eq. simpl.
    rewrite (Hfields "name"). vm_compute. reflexivity.
Defined.

(** ** Remote markdown and the two grammars *)

(** Any remote markdown inclusion prints the fallback warning first,
    whatever the parsers would answer: [new VFile] throws before the parse
    with GFM is reached. *)
Lemma remote_markdown_always_falls_back w rec cfg t snippetFile s r s' tr :
  t_isRemoteFile t = true ->
  isMarkdownExtension (getFileExtension (t_fileValue t)) = true ->
  produce w rec cfg t snippetFile s = Some (r, s', tr) ->
  exists tr',
    tr = WarnText "GFM processing failed, falling back to basic markdown:"
                  "VFile is not defined" :: tr'.
Proof.
  intros Hr Hmd. unfold produce. rewrite Hmd, Hr.
  rewrite (bind_run _ _ _ _ _ _ (use_all_run _ _ _)).
  rewrite (bind_run _ _ _ _ _ _ (use_all_run _ _ _)).
  unfold new_VFile. rewrite bind_ret_l.
  erewrite bind_run by reflexivity.
  destruct (then_ _ _ _) as [[[r' s''] tr']|]; [|discriminate].
  intros [= _ _ <-]. by exists tr'.
Qed.

(** The basic parse failing after the fallback is reported like a content
    that did not resolve: one error for that marker, whose promise is
    fulfilled. *)
Lemma fallback_failure_reported w rec cfg file t snippetFile s e :
  t_isRemoteFile t = true ->
  isMarkdownExtension (getFileExtension (t_fileValue t)) = true ->
  t_content t = Fulfilled snippetFile ->
  (forall g, parse w (unified cfg) g (sf_value snippetFile) = Rejected e) ->
  exists s',
    expansion w rec cfg file t s =
    Some (Fulfilled tt, s',
          [WarnText "GFM processing failed, falling back to basic markdown:"
                    "VFile is not defined";
           error_report w cfg file t (object_at (nodes s') (t_node t)) e])
    /\ nodes s' = nodes s.
Proof.
  intros Hr Hmd Hc Hparse.
  assert (exists s',
            produce w rec cfg t snippetFile s =
            Some (Rejected e, s',
                  [WarnText "GFM processing failed, falling back to basic markdown:"
                            "VFile is not defined"])
            /\ nodes s' = nodes s) as (s' & Hp & Hn).
  { unfold produce. rewrite Hmd, Hr.
    rewrite (bind_run _ _ _ _ _ _ (use_all_run _ _ _)).
    rewrite (bind_run _ _ _ _ _ _ (use_all_run _ _ _)).
    unfold new_VFile. rewrite bind_ret_l.
    erewrite bind_run by reflexivity.
    erewrite then_run; [|rewrite parse_with_run, Hparse; reflexivity].
    eexists. split; [reflexivity|]. unfold base. by destruct (unified cfg). }
  exists s'. split; [|exact Hn].
  unfold expansion. rewrite Hc.
  assert (then_ (ret (Fulfilled snippetFile)) (produce w rec cfg t) s
          = Some (Rejected e, s',
                  [WarnText "GFM processing failed, falling back to basic markdown:"
                            "VFile is not defined"])) as H1.
  { unfold then_. by rewrite bind_ret_l. }
  pose proof (then_run _ (splice t) _ _ _ _ H1) as H2. cbv iota in H2.
  by rewrite (catch_run _ _ _ _ _ _ H2), report_run.
Qed.

(** C8 at a remote markdown page whose parse with GFM would succeed: the
    run still prints the fallback warning, with the cause
    [VFile is not defined], and the tree is the one of the basic grammar. *)
Theorem gfm_attempt_never_parses :
  let s := Sample.store_of (Sample.root [Sample.snippet "https://example.com/two.md" 1]) in
  parse Sample.sample None {| gfm := true; mdx := false |} Sample.two_text
    = Fulfilled (Sample.root [Sample.heading 1 "Title"; Sample.paragraph "Body"])
  /\ exists s',
       mdxSnippet Sample.sample 6 Sample.no_options Sample.document 0%nat s
       = Some (Fulfilled tt, s',
               [FetchUrl "https://example.com/two.md";
                WarnText "GFM processing failed, falling back to basic markdown:"
                         "VFile is not defined"]).
Proof.
  split; [reflexivity|]. eexists. vm_compute. reflexivity.
Qed.

(** ** Nested inclusion *)

Lemma existsb_attach x ps y :
  existsb (same_plugin x) (attach ps y) = existsb (same_plugin x) ps || same_plugin x y.
Proof.
  induction ps as [|q ps IH]; simpl; [by rewrite orb_false_r|].
  destruct (same_plugin q y) eqn:Hqy; simpl.
  - destruct x, q, y; simpl in *; try discriminate;
      destruct (existsb _ ps); reflexivity.
  - rewrite IH. by rewrite orb_assoc.
Qed.

(** A local markdown file is parsed with GFM and MDX, whatever processor
    the chain of [.use] starts from. *)
Lemma local_grammar ps o :
  grammar_of (attach_all ps [remarkGfm; remarkStringify; remarkMdx; snippetPlugin o])
  = {| gfm := true; mdx := true |}.
Proof.
  unfold grammar_of, attach_all. simpl. rewrite !existsb_attach. simpl.
  by rewrite !orb_true_r.
Qed.

Lemma alloc_root_marker fr fB h :
  let l0 := fresh (dom h) in
  let lB := fresh (dom (<[l0 := fr]> h)) in
  alloc (Tree fr (Some [Tree fB (Some [])])) h =
  (l0, <[l0 := <["children" := VNodes [lB]]> fr]>
         (<[lB := <["children" := VNodes []]> fB]> (<[lB := fB]> (<[l0 := fr]> h)))).
Proof. reflexivity. Qed.

Lemma has_type_children (o : obj) v ty :
  has_type (<["children" := v]> o) ty = has_type o ty.
Proof. unfold has_type. by rewrite lookup_insert_ne. Qed.

Lemma has_name_children (o : obj) v name :
  has_name (<["children" := v]> o) name = has_name o name.
Proof. unfold has_name. by rewrite lookup_insert_ne. Qed.





(** * Further properties of the code *)

(** ** The extension, once more *)

Lemma last_pos_app p a b :
  last_pos p (a +:+ b) =
  match last_pos p b with
  | Some k => Some (String.length a + k)%nat
  | None => last_pos p a
  end.
Proof.
  induction a as [|c a IH].
  - change (EmptyString +:+ b) with b. by destruct (last_pos p b).
  - change (String c a +:+ b) with (String c (a +:+ b)). cbn [last_pos String.length].
    rewrite IH. by destruct (last_pos p b).
Qed.

Lemma drop_app_length a b : Js.drop (String.length a) (a +:+ b) = b.
Proof.
  induction a as [|c a IH]; [by destruct b|].
  change (String c a +:+ b) with (String c (a +:+ b)). exact IH.
Qed.

Lemma last_pos_toLowerCase x s :
  Js.lower_char x = x -> (forall c, Js.lower_char c = x -> c = x) ->
  last_pos (fun a => Ascii.eqb a x) (Js.toLowerCase s) = last_pos (fun a => Ascii.eqb a x) s.
Proof.
  intros Hx Hinj. induction s as [|c s IH]; simpl; [reflexivity|].
  rewrite IH. destruct (last_pos _ s); [reflexivity|].
  destruct (Ascii.eqb_spec c x) as [->|Hne].
  - by rewrite Hx, Ascii.eqb_refl.
  - destruct (Ascii.eqb_spec (Js.lower_char c) x) as [Heq|]; [|reflexivity].
    by destruct (Hne (Hinj _ Heq)).
Qed.

Lemma lower_char_punctuation x :
  x = dot \/ x = slash \/ x = backslash ->
  Js.lower_char x = x /\ forall c, Js.lower_char c = x -> c = x.
Proof.
  intros [->|[->| ->]]; (split; [reflexivity|]);
    intros [[] [] [] [] [] [] [] []]; vm_compute; congruence.
Qed.

(** X1.  The extension [getFileExtension] returns is in lower case and
    holds no dot, no slash and no backslash; the extension of an extension
    is therefore empty. *)
Theorem extension_is_clean (filePath : string) :
  let extension := getFileExtension filePath in
  Js.toLowerCase extension = extension
  /\ Js.lastIndexOf dot extension = -1
  /\ Js.lastIndexOf slash extension = -1
  /\ Js.lastIndexOf backslash extension = -1
  /\ getFileExtension extension = EmptyString.
Proof.
  intros extension.
  assert (forall x, x = dot \/ x = slash \/ x = backslash ->
                    Js.lastIndexOf x extension = -1) as Hclean.
  { intros x Hx. destruct (lower_char_punctuation x Hx) as [Hx1 Hx2].
    rewrite lastIndexOf_last_pos. unfold extension, getFileExtension.
    rewrite !lastIndexOf_last_pos.
    destruct (last_pos (fun a => Ascii.eqb a dot) filePath) as [d|] eqn:Hd;
      [|reflexivity].
    destruct (last_pos (fun a => Ascii.eqb a slash) filePath) as [p|] eqn:Hp;
      destruct (last_pos (fun a => Ascii.eqb a backslash) filePath) as [q|] eqn:Hq;
      cbn [index_or_minus_one];
      (destruct (Z.eqb_spec (Z.of_nat d) (-1)); [reflexivity|]);
      (match goal with
       | |- context [Z.ltb ?a ?b] => destruct (Z.ltb_spec a b); [reflexivity|]
       end);
      cbn [orb]; rewrite (last_pos_toLowerCase x _ Hx1 Hx2);
      unfold Js.substring; rewrite last_pos_drop;
      replace (Z.to_nat (Z.of_nat d + 1)) with (S d) by lia;
      (destruct (last_pos (fun a => Ascii.eqb a x) filePath) as [k|] eqn:Hk;
       [|reflexivity]);
      (destruct (Nat.leb_spec (S d) k); [|reflexivity]);
      exfalso; destruct Hx as [->|[->| ->]]; simplify_eq; lia. }
  split; [apply getFileExtension_lower|].
  split; [apply Hclean; auto|]. split; [apply Hclean; auto|].
  split; [apply Hclean; auto|].
  unfold getFileExtension at 1. fold extension. rewrite (Hclean dot) by auto. reflexivity.
Qed.

(** X2.  A name that ends in a dot followed by [e], where [e] holds no dot,
    slash or backslash, has the extension [e] in lower case, whatever comes
    before the dot: directories, other dots, the scheme and host of a URL,
    or nothing at all (a dotfile). *)
Theorem extension_of_suffix (before e : string) :
  Js.lastIndexOf dot e = -1 ->
  Js.lastIndexOf slash e = -1 ->
  Js.lastIndexOf backslash e = -1 ->
  getFileExtension (before +:+ "." +:+ e) = Js.toLowerCase e.
Proof.
  rewrite !lastIndexOf_last_pos. intros Hd Hs Hb.
  assert (forall x, index_or_minus_one (last_pos (fun a => Ascii.eqb a x) e) = -1 ->
                    last_pos (fun a => Ascii.eqb a x) e = None) as Hnone.
  { intros x. destruct (last_pos (fun a => Ascii.eqb a x) e);
      cbn [index_or_minus_one]; intros; [lia|done]. }
  apply Hnone in Hd, Hs, Hb.
  change ("." +:+ e) with (String dot e).
  set (n := String.length before).
  assert (forall p s, match last_pos p s with
                      | Some j => (j < String.length s)%nat
                      | None => True
                      end) as Hbound.
  { intros p s. induction s as [|c s IH]; cbn [last_pos String.length]; [done|].
    destruct (last_pos p s); [lia|]. destruct (p c); [lia|done]. }
  assert (last_pos (fun a => Ascii.eqb a dot) (before +:+ String dot e) = Some n) as Hdot.
  { rewrite last_pos_app. cbn [last_pos]. rewrite Hd, Ascii.eqb_refl.
    f_equal. unfold n. lia. }
  assert (forall x, x <> dot -> last_pos (fun a => Ascii.eqb a x) e = None ->
            index_or_minus_one
              (last_pos (fun a => Ascii.eqb a x) (before +:+ String dot e)) < Z.of_nat n)
    as Hsep.
  { intros x Hx Hx'. rewrite last_pos_app. cbn [last_pos]. rewrite Hx'.
    destruct (Ascii.eqb_spec dot x) as [Heq|_]; [by destruct Hx|].
    pose proof (Hbound (fun a => Ascii.eqb a x) before) as Hlt. fold n in Hlt.
    destruct (last_pos (fun a => Ascii.eqb a x) before);
      cbn [index_or_minus_one]; lia. }
  pose proof (Hsep slash ltac:(discriminate) Hs) as Hslash.
  pose proof (Hsep backslash ltac:(discriminate) Hb) as Hbackslash.
  unfold getFileExtension. rewrite !lastIndexOf_last_pos, Hdot.
  cbn [index_or_minus_one].
  destruct (Z.eqb_spec (Z.of_nat n) (-1)); [lia|].
  match goal with
  | |- context [Z.ltb ?a ?b] => destruct (Z.ltb_spec a b); [lia|]
  end.
  cbn [orb]. unfold Js.substring.
  replace (Z.to_nat (Z.of_nat n + 1)) with (S n) by lia.
  f_equal. clear. unfold n. induction before as [|c before IH]; [reflexivity|].
  change (String c before +:+ String dot e) with (String c (before +:+ String dot e)).
  exact IH.
Qed.

(** A tarball behind a URL, and a dotfile in a directory. *)
Lemma extension_of_suffix_witness :
  getFileExtension ("https://example.com/v1.2/archive.tar" +:+ "." +:+ "GZ") = "gz"
  /\ getFileExtension ("notes/" +:+ "." +:+ "md") = "md".
Proof.
  split.
  - exact (extension_of_suffix "https://example.com/v1.2/archive.tar" "GZ"
             eq_refl eq_refl eq_refl).
  - exact (extension_of_suffix "notes/" "md" eq_refl eq_refl eq_refl).
Defined.

(** ** The steps of a marker's promise, as equations *)

Lemma then_ret_run {A B} (p : promise A) (b : B) s :
  then_ p (fun _ => ret (Fulfilled b)) s =
  match p s with
  | Some (Fulfilled _, s1, tr) => Some (Fulfilled b, s1, tr)
  | Some (Rejected e, s1, tr) => Some (Rejected e, s1, tr)
  | None => None
  end.
Proof.
  unfold then_, bind, ret. destruct (p s) as [[[[a|e] s1] tr]|]; [| |reflexivity];
    by rewrite app_nil_r.
Qed.

Lemma run_with_run rec p ast file s o :
  snippet_options (attachers p s) = Some o ->
  run_with rec p ast file s =
  match rec o file ast s with
  | Some (Fulfilled _, s1, tr) => Some (Fulfilled ast, s1, tr)
  | Some (Rejected e, s1, tr) => Some (Rejected e, s1, tr)
  | None => None
  end.
Proof.
  intros Ho. unfold run_with. rewrite (bind_run _ _ _ _ _ _ (attachers_of_run p s)).
  rewrite Ho, then_ret_run. by destruct (rec o file ast s) as [[[[a|e] s1] tr]|].
Qed.

Lemma parse_run_run w rec cfg p content file s o :
  snippet_options (attachers p s) = Some o ->
  then_ (parse_with w cfg p content) (fun ast => run_with rec p ast file) s =
  match parse w (unified cfg) (grammar_of (attachers p s)) content with
  | Rejected e => Some (Rejected e, s, [])
  | Fulfilled t =>
      match rec o file (alloc t (nodes s)).1 (placed t s) with
      | Some (Fulfilled _, s1, tr) => Some (Fulfilled (alloc t (nodes s)).1, s1, tr)
      | Some (Rejected e, s1, tr) => Some (Rejected e, s1, tr)
      | None => None
      end
  end.
Proof.
  intros Ho. unfold then_.
  pose proof (parse_with_run w cfg p content s) as Hparse.
  destruct (parse w (unified cfg) (grammar_of (attachers p s)) content) as [t|e].
  - rewrite (bind_run _ _ _ _ _ _ Hparse).
    rewrite (run_with_run rec p _ file _ o); [|by destruct p].
    fold (placed t s). by destruct (rec o file _ (placed t s)) as [[[[a|e] s1] tr]|].
  - by rewrite (bind_run _ _ _ _ _ _ Hparse).
Qed.

Lemma use_all_base cfg xs s :
  use_all (base cfg) xs s =
  Some (match unified cfg with
        | Some _ => Shared
        | None => Fresh (attach_all [remarkStringify] xs)
        end, after_use cfg xs s, []).
Proof. rewrite use_all_run. unfold base, after_use. by destruct (unified cfg). Qed.

Lemma attachers_after_use cfg xs s :
  attachers (match unified cfg with
             | Some _ => Shared
             | None => Fresh (attach_all [remarkStringify] xs)
             end) (after_use cfg xs s) = used cfg xs s.
Proof. unfold after_use, used. by destruct (unified cfg). Qed.

Lemma snippet_options_used cfg xs o s :
  snippet_options (used cfg (xs ++ [snippetPlugin o]) s) = Some o.
Proof.
  unfold used, attach_all. destruct (unified cfg);
    rewrite fold_left_app; apply snippet_options_attach.
Qed.

(** A local markdown file: the chain of [.use], the parse with GFM and
    MDX, the run of the plugin on the tree. *)
Lemma produce_local w rec cfg t snippetFile s :
  isMarkdownExtension (getFileExtension (t_fileValue t)) = true ->
  t_isRemoteFile t = false ->
  let xs := [remarkGfm; remarkStringify; remarkMdx; snippetPlugin (nested_options cfg)] in
  let s0 := after_use cfg xs s in
  let file := {| vf_path := Some (sf_path snippetFile); vf_compiler := false |} in
  produce w rec cfg t snippetFile s =
  match parse w (unified cfg) {| gfm := true; mdx := true |} (sf_value snippetFile) with
  | Rejected e => Some (Rejected e, s0, [])
  | Fulfilled tree =>
      match rec (nested_options cfg) file (alloc tree (nodes s)).1 (placed tree s0) with
      | Some (Fulfilled _, s1, tr) => Some (Fulfilled (alloc tree (nodes s)).1, s1, tr)
      | Some (Rejected e, s1, tr) => Some (Rejected e, s1, tr)
      | None => None
      end
  end.
Proof.
  intros Hmd Hlocal xs s0 file. unfold produce. rewrite Hmd, Hlocal.
  rewrite (bind_run _ _ _ _ _ _ (use_all_base cfg xs s)). fold s0. fold file.
  rewrite (parse_run_run w rec cfg _ _ file s0 (nested_options cfg)).
  2: { unfold s0. rewrite attachers_after_use.
       apply (snippet_options_used cfg [remarkGfm; remarkStringify; remarkMdx]). }
  unfold s0 at 1. rewrite attachers_after_use.
  assert (grammar_of (used cfg xs s) = {| gfm := true; mdx := true |}) as ->.
  { unfold used. destruct (unified cfg); apply local_grammar. }
  assert (nodes s0 = nodes s) as -> by (unfold s0, after_use; by destruct (unified cfg)).
  destruct (parse w _ _ _) as [tree|e]; [|reflexivity].
  by destruct (rec _ _ _ _) as [[[[a|e] s1] tr]|].
Qed.

Lemma after_use_nodes cfg xs s : nodes (after_use cfg xs s) = nodes s.
Proof. unfold after_use. by destruct (unified cfg). Qed.

Lemma grammar_of_remote cfg s :
  grammar_of
    (used cfg [remarkStringify; snippetPlugin (nested_options cfg)]
       (after_use cfg [remarkGfm; remarkStringify; snippetPlugin (nested_options cfg)] s))
  = remote_grammar cfg s.
Proof.
  unfold used, after_use, remote_grammar, grammar_of, attached, attach_all.
  destruct (unified cfg); [|reflexivity].
  simpl. rewrite !existsb_attach. simpl. rewrite !orb_false_r, ?orb_true_r. reflexivity.
Qed.

(** A remote markdown text: both chains of [.use], the warning of the
    attempt that fails, the parse and the run of the fallback. *)
Lemma produce_remote w rec cfg t snippetFile s :
  isMarkdownExtension (getFileExtension (t_fileValue t)) = true ->
  t_isRemoteFile t = true ->
  let s0 :=
    after_use cfg [remarkStringify; snippetPlugin (nested_options cfg)]
      (after_use cfg [remarkGfm; remarkStringify; snippetPlugin (nested_options cfg)] s) in
  let file := {| vf_path := Some (t_fileValue t); vf_compiler := false |} in
  produce w rec cfg t snippetFile s =
  match parse w (unified cfg) (remote_grammar cfg s) (sf_value snippetFile) with
  | Rejected e => Some (Rejected e, s0, [gfm_failed])
  | Fulfilled tree =>
      match rec (nested_options cfg) file (alloc tree (nodes s)).1 (placed tree s0) with
      | Some (Fulfilled _, s1, tr) =>
          Some (Fulfilled (alloc tree (nodes s)).1, s1, gfm_failed :: tr)
      | Some (Rejected e, s1, tr) => Some (Rejected e, s1, gfm_failed :: tr)
      | None => None
      end
  end.
Proof.
  intros Hmd Hremote s0 file. unfold produce. rewrite Hmd, Hremote.
  rewrite (bind_run _ _ _ _ _ _ (use_all_base cfg _ s)).
  rewrite (bind_run _ _ _ _ _ _ (use_all_base cfg _ _)). fold s0.
  unfold new_VFile. rewrite bind_ret_l.
  erewrite bind_run by reflexivity. fold file.
  rewrite (parse_run_run w rec cfg _ _ file s0 (nested_options cfg)).
  2: { unfold s0. rewrite attachers_after_use.
       apply (snippet_options_used cfg [remarkStringify]). }
  unfold s0 at 1. rewrite attachers_after_use, grammar_of_remote.
  assert (nodes s0 = nodes s) as -> by (unfold s0; by rewrite !after_use_nodes).
  destruct (parse w _ _ _) as [tree|e]; [|reflexivity].
  by destruct (rec _ _ _ _) as [[[[a|e] s1] tr]|].
Qed.

(** Content that is not markdown: a new root with the code node. *)
Lemma produce_code w rec cfg t snippetFile s :
  isMarkdownExtension (getFileExtension (t_fileValue t)) = false ->
  let root := Tree {[ "type" := VStr "root" ]}
                   (Some [codeBlockNode t (getFileExtension (t_fileValue t)) snippetFile]) in
  produce w rec cfg t snippetFile s =
  Some (Fulfilled (alloc root (nodes s)).1, placed root s, []).
Proof.
  intros Hmd root. unfold produce. rewrite Hmd. fold root.
  rewrite (bind_run _ _ _ _ _ _ (place_run root s)). reflexivity.
Qed.

(** The promise of a marker, step by step. *)
Lemma expansion_run w rec cfg file t s :
  expansion w rec cfg file t s =
  match t_content t with
  | Rejected e =>
      Some (Fulfilled tt, s, [error_report w cfg file t (object_at (nodes s) (t_node t)) e])
  | Fulfilled snippetFile =>
      match produce w rec cfg t snippetFile s with
      | None => None
      | Some (Rejected e, s1, tr) =>
          Some (Fulfilled tt, s1,
                tr ++ [error_report w cfg file t (object_at (nodes s1) (t_node t)) e])
      | Some (Fulfilled result, s1, tr) =>
          match splice t result s1 with
          | Some (Rejected e, s2, _) =>
              Some (Fulfilled tt, s2,
                    tr ++ [error_report w cfg file t (object_at (nodes s2) (t_node t)) e])
          | Some (Fulfilled _, s2, _) => Some (Fulfilled tt, s2, tr)
          | None => None
          end
      end
  end.
Proof.
  destruct (t_content t) as [snippetFile|e] eqn:Hc; [|by apply expansion_unresolved].
  unfold expansion. rewrite Hc. unfold catch_, then_, bind, ret.
  destruct (produce w rec cfg t snippetFile s) as [[[[result|e] s1] tr]|]; [| |reflexivity].
  - destruct (object_at (nodes s1) result !! "children") as [v|] eqn:Hk.
    + assert ((exists children, v = VNodes children)
              \/ (forall children, v <> VNodes children)) as [[children ->]|Hno]
        by (destruct v; eauto; right; intros; discriminate).
      * rewrite (splice_run _ _ _ _ Hk). simpl. by rewrite !app_nil_r.
      * destruct (splice_no_children t result s1) as [m Hm].
        { rewrite Hk. intros children [= ->]. by eapply Hno. }
        rewrite Hm. rewrite report_run. simpl. by rewrite ?app_nil_r.
    + destruct (splice_no_children t result s1) as [m Hm]; [by rewrite Hk|].
      rewrite Hm. rewrite report_run. simpl. by rewrite ?app_nil_r.
  - rewrite report_run. simpl. by rewrite ?app_nil_r.
Qed.

(** ** The walk: what it starts and what it registers *)

Lemma visit_all_trace w cfg file ls s :
  exists queue thrown tr,
    visit_all w cfg file ls s = Some ((queue, thrown), s, tr)
    /\ List.filter is_request tr = map request_of queue
    /\ List.filter is_dependency tr =
       (if vf_compiler file then map dependency_of (List.filter is_local queue) else []).
Proof.
  induction ls as [|l ls (queue & thrown & tr & Hrun & Hreq & Hdep)].
  - exists [], None, []. by destruct (vf_compiler file).
  - cbn [visit_all].
    destruct (is_marker cfg (object_at (nodes s) l)) eqn:Hm.
    2: { rewrite (bind_run _ _ _ _ _ _ (visitor_not_marker w cfg file l s Hm)), Hrun.
         by eexists _, _, _. }
    assert (forall message,
              visitor w cfg file l s = Some (Threw message, s, []) ->
              exists queue thrown tr,
                (let* v := visitor w cfg file l in
                 match v with
                 | Threw e => ret ([], Some e)
                 | Queued t =>
                     let* walked := visit_all w cfg file ls in
                     ret (t :: walked.1, walked.2)
                 | _ => visit_all w cfg file ls
                 end) s = Some ((queue, thrown), s, tr)
                /\ List.filter is_request tr = map request_of queue
                /\ List.filter is_dependency tr =
                   (if vf_compiler file
                    then map dependency_of (List.filter is_local queue) else []))
      as Hthrow.
    { intros message Hv. rewrite (bind_run _ _ _ _ _ _ Hv). simpl.
      exists [], (Some message), []. by destruct (vf_compiler file). }
    destruct (object_at (nodes s) l !! "attributes") as [v|] eqn:Ha.
    2: { destruct (visitor_no_attributes w cfg file l s Hm) as [m Hv]; [by rewrite Ha|].
         by eapply Hthrow. }
    assert ((exists attributes, v = VAttrs attributes)
            \/ (forall attributes, v <> VAttrs attributes)) as [[attributes ->]|Hno]
      by (destruct v; eauto; right; intros; discriminate).
    2: { destruct (visitor_no_attributes w cfg file l s Hm) as [m Hv].
         { rewrite Ha. intros attributes [= ->]. by eapply Hno. }
         by eapply Hthrow. }
    destruct (string_value (find_attribute (fileAttribute cfg) attributes))
      as [fileValue|] eqn:Hv.
    2: { rewrite (bind_run _ _ _ _ _ _ (visitor_malformed w cfg file l s _ Hm Ha Hv)), Hrun.
         by eexists _, _, _. }
    destruct (isRemoteFile fileValue) eqn:Hr.
    + rewrite (bind_run _ _ _ _ _ _ (visitor_remote w cfg file l s _ _ Hm Ha Hv Hr)).
      rewrite (bind_run _ _ _ _ _ _ Hrun). simpl.
      eexists _, _, _. split; [reflexivity|]. rewrite app_nil_r.
      cbn [List.filter is_request is_dependency map is_local negb t_isRemoteFile].
      split; [by rewrite Hreq|]. by rewrite Hdep.
    + rewrite (bind_run _ _ _ _ _ _ (visitor_local w cfg file l s _ _ Hm Ha Hv Hr)).
      rewrite (bind_run _ _ _ _ _ _ Hrun). simpl.
      eexists _, _, _. split; [reflexivity|]. rewrite app_nil_r.
      cbn [List.filter map is_local negb t_isRemoteFile].
      rewrite !List.filter_app, Hreq, Hdep.
      by destruct (vf_compiler file).
Qed.

(** ** Properties that hold at every depth of inclusion *)

Section Invariant.

Context (w : world) (cfg : config) (J : list plugin -> Prop) (G : event -> Prop).

Hypothesis J_use : forall ps x, unified cfg <> None -> J ps -> J (attach ps x).
Hypothesis G_quiet : forall e, is_dependency e = false -> G e.

Lemma keeps_after_use xs s :
  J (shared_attachers s) -> J (shared_attachers (after_use cfg xs s)).
Proof.
  unfold after_use. destruct (unified cfg) as [p|] eqn:Hu; [|done].
  simpl. unfold attach_all. generalize (shared_attachers s).
  induction xs as [|x xs IH]; intros ps Hps; [done|].
  simpl. apply IH, J_use; done.
Qed.

Context (rec : options -> vfile -> loc -> promise unit).
Hypothesis rec_keeps :
  forall file root, vf_compiler file = false -> keeps J G (rec (nested_options cfg) file root).

Lemma keeps_produce t snippetFile : keeps J G (produce w rec cfg t snippetFile).
Proof.
  intros s a s' tr HJ Hrun.
  destruct (isMarkdownExtension (getFileExtension (t_fileValue t))) eqn:Hmd.
  - destruct (t_isRemoteFile t) eqn:Hr.
    + rewrite (produce_remote _ _ _ _ _ _ Hmd Hr) in Hrun.
      destruct (parse w _ _ _) as [tree|e].
      * revert Hrun.
        set (s0 := placed tree _). set (l := (alloc tree (nodes s)).1).
        assert (J (shared_attachers s0)) as HJ0 by (by do 2 apply keeps_after_use).
        destruct (rec (nested_options cfg) _ l s0) as [[[[u|e] s1] tr1]|] eqn:E;
          [| |discriminate]; intros [= <- <- <-];
          (edestruct rec_keeps as [HJ1 HG1]; [|exact HJ0|exact E|]; [reflexivity|]);
          (split; [done|]); (constructor; [by apply G_quiet|done]).
      * injection Hrun as <- <- <-.
        split; [by do 2 apply keeps_after_use|]. by repeat constructor; apply G_quiet.
    + rewrite (produce_local _ _ _ _ _ _ Hmd Hr) in Hrun.
      destruct (parse w _ _ _) as [tree|e].
      * revert Hrun.
        set (s0 := placed tree _). set (l := (alloc tree (nodes s)).1).
        assert (J (shared_attachers s0)) as HJ0 by (by apply keeps_after_use).
        destruct (rec (nested_options cfg) _ l s0) as [[[[u|e] s1] tr1]|] eqn:E;
          [| |discriminate]; intros [= <- <- <-];
          (edestruct rec_keeps as [HJ1 HG1]; [|exact HJ0|exact E|]; [reflexivity|]);
          done.
      * injection Hrun as <- <- <-. split; [by apply keeps_after_use|constructor].
  - rewrite (produce_code _ _ _ _ _ _ Hmd) in Hrun. injection Hrun as <- <- <-.
    split; [done|constructor].
Qed.

Lemma splice_shared t result s r s' tr :
  splice t result s = Some (r, s', tr) -> shared_attachers s' = shared_attachers s.
Proof.
  intros Hrun.
  destruct (object_at (nodes s) result !! "children") as [v|] eqn:Hk.
  - assert ((exists children, v = VNodes children)
            \/ (forall children, v <> VNodes children)) as [[children ->]|Hno]
      by (destruct v; eauto; right; intros; discriminate).
    + rewrite (splice_run _ _ _ _ Hk) in Hrun. by injection Hrun as <- <- <-.
    + destruct (splice_no_children t result s) as [m Hm].
      { rewrite Hk. intros children [= ->]. by eapply Hno. }
      rewrite Hm in Hrun. by injection Hrun as <- <- <-.
  - destruct (splice_no_children t result s) as [m Hm]; [by rewrite Hk|].
    rewrite Hm in Hrun. by injection Hrun as <- <- <-.
Qed.

Lemma keeps_expansion file t : keeps J G (expansion w rec cfg file t).
Proof.
  intros s a s' tr HJ. rewrite expansion_run.
  destruct (t_content t) as [snippetFile|e].
  2: { intros [= <- <- <-]. split; [done|]. by repeat constructor; apply G_quiet. }
  destruct (produce w rec cfg t snippetFile s) as [[[[result|e] s1] tr1]|] eqn:Hp;
    [| |discriminate].
  - destruct (keeps_produce _ _ _ _ _ _ HJ Hp) as [HJ1 HG1].
    destruct (splice t result s1) as [[[[u|e] s2] tr2]|] eqn:Hs; [| |discriminate];
      intros [= <- <- <-]; rewrite (splice_shared _ _ _ _ _ _ Hs);
      (split; [done|]); [done|].
    apply Forall_app. split; [done|]. by repeat constructor; apply G_quiet.
  - destruct (keeps_produce _ _ _ _ _ _ HJ Hp) as [HJ1 HG1].
    intros [= <- <- <-]. split; [done|].
    apply Forall_app. split; [done|]. by repeat constructor; apply G_quiet.
Qed.

Lemma keeps_settle_all file queue : keeps J G (settle_all w rec cfg file queue).
Proof.
  induction queue as [|t queue IH]; intros s rs s' tr HJ Hrun.
  - injection Hrun as <- <- <-. by split.
  - cbn [settle_all] in Hrun.
    apply bind_Some in Hrun as (r & s1 & tr1 & tr2 & Ht & Hrest & ->).
    apply bind_Some in Hrest as (rs0 & s2 & tr3 & tr4 & Hrest & Hret & ->).
    injection Hret as <- <- <-.
    destruct (keeps_expansion _ _ _ _ _ _ HJ Ht) as [HJ1 HG1].
    destruct (IH _ _ _ _ HJ1 Hrest) as [HJ2 HG2].
    split; [done|]. rewrite app_nil_r. by apply Forall_app.
Qed.

Lemma keeps_transformer depth file root :
  (vf_compiler file = true -> forall p, G (AddDependency p)) ->
  keeps J G (transformer w rec depth cfg file root).
Proof.
  intros Hdep s r s' tr HJ Hrun. unfold transformer in Hrun.
  destruct (visit depth (nodes s) root jsx_types) as [found|]; [|discriminate].
  destruct (visit_all_trace w cfg file found s)
    as (queue & thrown & tr0 & Hwalk & _ & Hdeps).
  rewrite (bind_run _ _ _ _ _ _ Hwalk) in Hrun. cbn [fst snd] in Hrun.
  destruct (bind _ _ s) as [[[r' s''] tr']|] eqn:E; [|discriminate].
  injection Hrun as <- <- <-.
  apply bind_Some in E as (rs & s1 & tr1 & tr2 & Hsettle & Hret & ->).
  injection Hret as <- <- <-.
  destruct (keeps_settle_all _ _ _ _ _ _ HJ Hsettle) as [HJ1 HG1].
  split; [done|]. rewrite app_nil_r. apply Forall_app. split; [|done].
  apply Forall_forall. intros e He.
  destruct (is_dependency e) eqn:Hd; [|by apply G_quiet].
  destruct e; try discriminate. apply Hdep.
  destruct (vf_compiler file); [done|].
  assert (In (AddDependency path) (List.filter is_dependency tr0)) as Hin.
  { apply filter_In. split; [|done]. by apply list_elem_of_In. }
  rewrite Hdeps in Hin. destruct Hin.
Qed.

End Invariant.

Lemma mdxSnippet_keeps w (J : list plugin -> Prop) (G : event -> Prop) processor :
  (forall ps x, processor <> None -> J ps -> J (attach ps x)) ->
  (forall e, is_dependency e = false -> G e) ->
  forall fuel o file root,
    opt_processor o = processor ->
    (vf_compiler file = true -> forall p, G (AddDependency p)) ->
    keeps J G (mdxSnippet w fuel o file root).
Proof.
  intros HJ HG. induction fuel as [|n IH]; intros o file root Ho Hdep.
  - intros s r s' tr _ [=].
  - cbn [mdxSnippet].
    apply keeps_transformer; [by simpl; rewrite Ho|exact HG| |exact Hdep].
    intros file' root' Hc. apply IH; [by simpl|]. by rewrite Hc.
Qed.

(** ** A document without markers *)

Lemma visit_all_no_marker w cfg file ls s :
  Forall (fun l => is_marker cfg (object_at (nodes s) l) = false) ls ->
  visit_all w cfg file ls s = Some (([], None), s, []).
Proof.
  induction 1 as [|l ls Hl _ IH]; [reflexivity|].
  cbn [visit_all]. by rewrite (bind_run _ _ _ _ _ _ (visitor_not_marker w cfg file l s Hl)), IH.
Qed.

(** X3.  A document in which no JSX element carries the configured name:
    the transform ends at once, fulfilled; it reads, requests and prints
    nothing and the store is what it was. *)
Theorem unmarked_document_unchanged w n o file root s found :
  visit n (nodes s) root jsx_types = Some found ->
  Forall (fun l => is_marker (resolve_options w o) (object_at (nodes s) l) = false) found ->
  mdxSnippet w (S n) o file root s = Some (Fulfilled tt, s, []).
Proof.
  intros Hv Hnone.
  rewrite (mdxSnippet_unfold w n o file root s found [] None [] Hv);
    [reflexivity|by apply visit_all_no_marker].
Qed.

(** The page with a heading and a [Note] element. *)
Lemma unmarked_document_unchanged_witness :
  let s := Sample.store_of Cases.plain in
  mdxSnippet Sample.sample 5 Sample.no_options Sample.document 0%nat s
  = Some (Fulfilled tt, s, []).
Proof.
  intros s.
  apply (unmarked_document_unchanged Sample.sample 4 Sample.no_options Sample.document
           0%nat s [3%nat]); [by_running|].
  constructor; [by_running|constructor].
Defined.

(** ** Reads, requests and registrations of a run *)

(** X4.  The walk starts the read or the request of every marker it queues
    before any content is processed: the trace of a run begins with the
    trace of the walk, whose reads and requests are those of the queued
    markers, one each and in document order, a reference met twice being
    read twice. *)
Theorem requests_start_in_the_walk w n o file root s r s' tr :
  mdxSnippet w (S n) o file root s = Some (r, s', tr) ->
  exists found queue thrown tr0 tr1,
    visit n (nodes s) root jsx_types = Some found
    /\ visit_all w (resolve_options w o) file found s = Some ((queue, thrown), s, tr0)
    /\ tr = tr0 ++ tr1
    /\ List.filter is_request tr0 = map request_of queue.
Proof.
  intros Hrun.
  destruct (visit n (nodes s) root jsx_types) as [found|] eqn:Hv.
  2: { cbn [mdxSnippet] in Hrun. unfold transformer in Hrun. by rewrite Hv in Hrun. }
  destruct (visit_all_trace w (resolve_options w o) file found s)
    as (queue & thrown & tr0 & Hwalk & Hreq & _).
  rewrite (mdxSnippet_unfold _ _ _ _ _ _ _ _ _ _ Hv Hwalk) in Hrun.
  destruct (settle_all _ _ _ _ queue s) as [[[rs s1] tr1]|]; [|discriminate].
  injection Hrun as <- <- <-. by exists found, queue, thrown, tr0, tr1.
Qed.

(** The page that includes nested.mdx twice: it is read twice by the walk,
    before the included child.mdx. *)
Lemma requests_start_in_the_walk_witness :
  let s := Sample.store_of Cases.twice in
  exists found queue thrown tr0 tr1,
    visit 5 (nodes s) 0%nat jsx_types = Some found
    /\ visit_all Sample.sample (resolve_options Sample.sample Sample.no_options)
         Cases.compiled found s = Some ((queue, thrown), s, tr0)
    /\ [AddDependency "/docs/_snippets/nested.mdx";
        ReadFile "/docs/_snippets/nested.mdx";
        FetchUrl "https://example.com/two.md";
        AddDependency "/docs/_snippets/nested.mdx";
        ReadFile "/docs/_snippets/nested.mdx";
        ReadFile "/docs/_snippets/child.mdx";
        gfm_failed;
        ReadFile "/docs/_snippets/child.mdx"] = tr0 ++ tr1
    /\ List.filter is_request tr0 = map request_of queue.
Proof.
  intros s.
  apply (requests_start_in_the_walk Sample.sample 5 Sample.no_options Cases.compiled
           0%nat s (Fulfilled tt)
           (match mdxSnippet Sample.sample 6 Sample.no_options Cases.compiled 0%nat s with
            | Some (_, s', _) => s'
            | None => s
            end)).
  by_running.
Defined.

(** X5.  Only the walk of the document the transform is called on registers
    dependencies: when its file carries a compiler, one for each local
    marker queued, in order; none for a remote marker, and none for the
    markers of included content, at any depth. *)
Theorem dependencies_of_the_document_only w n o file root s r s' tr :
  mdxSnippet w (S n) o file root s = Some (r, s', tr) ->
  exists found queue thrown tr0,
    visit n (nodes s) root jsx_types = Some found
    /\ visit_all w (resolve_options w o) file found s = Some ((queue, thrown), s, tr0)
    /\ List.filter is_dependency tr =
       (if vf_compiler file then map dependency_of (List.filter is_local queue) else []).
Proof.
  intros Hrun.
  destruct (visit n (nodes s) root jsx_types) as [found|] eqn:Hv.
  2: { cbn [mdxSnippet] in Hrun. unfold transformer in Hrun. by rewrite Hv in Hrun. }
  destruct (visit_all_trace w (resolve_options w o) file found s)
    as (queue & thrown & tr0 & Hwalk & _ & Hdep).
  rewrite (mdxSnippet_unfold _ _ _ _ _ _ _ _ _ _ Hv Hwalk) in Hrun.
  destruct (settle_all _ _ _ _ queue s) as [[[rs s1] tr1]|] eqn:Hsettle; [|discriminate].
  injection Hrun as <- <- <-. exists found, queue, thrown, tr0.
  split; [done|]. split; [done|].
  rewrite List.filter_app, Hdep.
  assert (List.filter is_dependency tr1 = []) as ->; [|by rewrite app_nil_r].
  assert (keeps (fun _ => True) (fun e => is_dependency e = false)
            (settle_all w (mdxSnippet w n) (resolve_options w o) file queue)) as Hk.
  { apply keeps_settle_all; [done|done|].
    intros file' root' Hc.
    apply (mdxSnippet_keeps w _ _ (opt_processor o)); [done|done|done|].
    by rewrite Hc. }
  destruct (Hk _ _ _ _ I Hsettle) as [_ Hquiet].
  clear -Hquiet. induction Hquiet as [|e tr He _ IH]; [reflexivity|].
  cbn [List.filter]. by rewrite He.
Qed.

(** The page that includes nested.mdx twice, compiled by a bundler:
    nested.mdx is registered twice, the remote page and the child.mdx that
    nested.mdx includes are not. *)
Lemma dependencies_of_the_document_only_witness :
  let s := Sample.store_of Cases.twice in
  match mdxSnippet Sample.sample 6 Sample.no_options Cases.compiled 0%nat s with
  | Some (_, _, tr) =>
      In (ReadFile "/docs/_snippets/child.mdx") tr
      /\ List.filter is_dependency tr =
         [AddDependency "/docs/_snippets/nested.mdx";
          AddDependency "/docs/_snippets/nested.mdx"]
      /\ exists found queue thrown tr0,
           visit 5 (nodes s) 0%nat jsx_types = Some found
           /\ visit_all Sample.sample (resolve_options Sample.sample Sample.no_options)
                Cases.compiled found s = Some ((queue, thrown), s, tr0)
           /\ List.filter is_dependency tr =
              map dependency_of (List.filter is_local queue)
  | None => False
  end.
Proof.
  intros s.
  destruct (mdxSnippet _ _ _ _ _ s) as [[[r s'] tr]|] eqn:Hrun.
  - split; [|split].
    + vm_compute in Hrun. injection Hrun as _ _ <-. simpl. tauto.
    + vm_compute in Hrun. by injection Hrun as _ _ <-.
    + exact (dependencies_of_the_document_only Sample.sample 5 Sample.no_options
               Cases.compiled 0%nat s r s' tr Hrun).
  - vm_compute in Hrun. discriminate.
Defined.

(** ** A file that includes itself *)

Lemma single_marker_walk fr fm h n :
  has_type fr flowElement = false ->
  has_type fr textElement = false ->
  has_type fm flowElement || has_type fm textElement = true ->
  let page := Tree fr (Some [Tree fm (Some [])]) in
  exists lB,
    object_at (alloc page h).2 lB = <["children" := VNodes []]> fm
    /\ (visit n (alloc page h).2 (alloc page h).1 jsx_types = None
        \/ visit n (alloc page h).2 (alloc page h).1 jsx_types = Some [lB]).
Proof.
  intros Hfr1 Hfr2 Hfm page. unfold page. rewrite alloc_root_marker. cbv zeta. cbn [fst snd].
  set (l0 := fresh (dom h)). set (lB := fresh (dom (<[l0 := fr]> h))).
  set (h1 := <[l0 := _]> _).
  assert (lB <> l0) as Hne by apply fresh_after_insert.
  assert (object_at h1 l0 = <["children" := VNodes [lB]]> fr) as Ho0.
  { unfold object_at, h1. by rewrite lookup_insert_eq. }
  assert (object_at h1 lB = <["children" := VNodes []]> fm) as HoB.
  { unfold object_at, h1. rewrite lookup_insert_ne by done. by rewrite lookup_insert_eq. }
  exists lB. split; [exact HoB|].
  destruct n as [|[|n]]; [by left|left|right].
  - unfold visit. cbn [preorder]. rewrite Ho0, lookup_insert_eq. reflexivity.
  - unfold visit. cbn [preorder]. rewrite Ho0, lookup_insert_eq.
    cbn [mapM]. cbn [preorder]. rewrite HoB, lookup_insert_eq.
    simpl. unfold type_listed, jsx_types. cbn [existsb].
    rewrite !Ho0, !HoB, !has_type_children, Hfr1, Hfr2. simpl.
    by rewrite orb_false_r, Hfm.
Qed.

(** X6.  No guard against cycles: a local markdown file whose text parses
    to a document holding a marker for that same file.  The transform of
    that document reads the file, parses it, runs on the tree, meets the
    marker, reads the file again, and so on; it settles at no depth. *)
Theorem self_inclusion_never_settles w o reference content fr fm attributes :
  let cfg := resolve_options w o in
  let page := Tree fr (Some [Tree fm (Some [])]) in
  isRemoteFile reference = false ->
  isMarkdownExtension (getFileExtension reference) = true ->
  read w (path_join w (snippetsDir cfg) reference) = Fulfilled content ->
  parse w (unified cfg) {| gfm := true; mdx := true |} content = Fulfilled page ->
  has_type fr flowElement = false ->
  has_type fr textElement = false ->
  is_marker cfg fm = true ->
  fm !! "attributes" = Some (VAttrs attributes) ->
  string_value (find_attribute (fileAttribute cfg) attributes) = Some reference ->
  forall fuel file s,
    mdxSnippet w fuel o file (alloc page (nodes s)).1 (placed page s) = None.
Proof.
  intros cfg page Hlocal Hmd Hread Hparse Hfr1 Hfr2 Hm Ha Hv fuel.
  assert (forall o', resolve_options w o' = cfg ->
            forall file s,
              mdxSnippet w fuel o' file (alloc page (nodes s)).1 (placed page s) = None)
    as Hall; [|by apply Hall].
  induction fuel as [|n IH]; intros o' Ho' file s; [reflexivity|].
  pose proof Hm as Hty. unfold is_marker in Hty. apply andb_true_iff in Hty as [Hty Hname].
  destruct (single_marker_walk fr fm (nodes s) n Hfr1 Hfr2 Hty) as (lB & HoB & [Hv0|Hv1]).
  { fold page in Hv0. cbn [mdxSnippet]. unfold transformer.
    change (nodes (placed page s)) with (alloc page (nodes s)).2. by rewrite Hv0. }
  fold page in Hv1, HoB.
  set (s1 := placed page s).
  assert (is_marker cfg (object_at (nodes s1) lB) = true) as Hm1.
  { unfold s1. cbn [placed nodes]. rewrite HoB. unfold is_marker.
    by rewrite !has_type_children, has_name_children, Hty, Hname. }
  assert (object_at (nodes s1) lB !! "attributes" = Some (VAttrs attributes)) as Ha1.
  { unfold s1. cbn [placed nodes]. rewrite HoB. by rewrite lookup_insert_ne. }
  pose proof (visitor_local w cfg file lB s1 _ _ Hm1 Ha1 Hv Hlocal) as Hvis.
  cbv zeta in Hvis.
  set (tB := {| t_node := lB |}) in Hvis.
  set (trV := _ ++ [ReadFile _]) in Hvis.
  assert (visit_all w cfg file [lB] s1 = Some (([tB], None), s1, trV)) as Hwalk.
  { cbn [visit_all]. rewrite (bind_run _ _ _ _ _ _ Hvis). simpl. by rewrite app_nil_r. }
  rewrite <- Ho' in Hwalk.
  rewrite (mdxSnippet_unfold w n o' file _ s1 [lB] [tB] None trV Hv1 Hwalk), Ho'.
  assert (settle_all w (mdxSnippet w n) cfg file [tB] s1 = None) as ->; [|reflexivity].
  cbn [settle_all]. unfold bind at 1.
  assert (expansion w (mdxSnippet w n) cfg file tB s1 = None) as ->; [|reflexivity].
  rewrite expansion_run. unfold tB at 1. cbn [t_content]. unfold was_read. rewrite Hread.
  rewrite (produce_local w _ cfg tB _ s1 Hmd eq_refl). cbn [sf_value]. rewrite Hparse.
  rewrite <- (after_use_nodes cfg
                [remarkGfm; remarkStringify; remarkMdx; snippetPlugin (nested_options cfg)] s1).
  rewrite IH; [reflexivity|apply resolve_nested_options].
Qed.

(** loop.mdx holds a marker for loop.mdx. *)
Lemma self_inclusion_never_settles_witness :
  let fr : obj := {[ "type" := VStr "root" ]} in
  let fm : obj := {[ "type" := VStr flowElement; "name" := VStr "Snippet";
                     "attributes" := VAttrs [Sample.attr "file" "loop.mdx"];
                     "position" := VPos 1 1 ]} in
  let page := Tree fr (Some [Tree fm (Some [])]) in
  read Cases.looping "/docs/_snippets/loop.mdx" = Fulfilled Cases.loop_text
  /\ parse Cases.looping None {| gfm := true; mdx := true |} Cases.loop_text = Fulfilled page
  /\ mdxSnippet Cases.looping 40 Sample.no_options Sample.document
       (alloc page ∅).1 (placed page (State ∅ [])) = None.
Proof.
  intros fr fm page. split; [reflexivity|]. split; [reflexivity|].
  exact (self_inclusion_never_settles Cases.looping Sample.no_options "loop.mdx"
           Cases.loop_text fr fm [Sample.attr "file" "loop.mdx"]
           eq_refl eq_refl eq_refl eq_refl eq_refl eq_refl
           ltac:(by_running) ltac:(by_running) eq_refl
           40%nat Sample.document (State ∅ [])).
Defined.
